(** * The EPICS session layer of pyepics: [lib/__init__.py]

    The module keeps two process-wide dictionaries, [_Cache] and
    [_Monitors], and offers [caget], [caput], [cainfo], [camonitor] and
    [camonitor_clear] on top of the [PV] class.  The development below
    embeds these functions as computations over an explicit world: the two
    dictionaries, the [PV] instances allocated so far, what was written to
    [sys.stdout], the value of [time.time()] and the log of the calls made
    on the [PV] layer.  Python exceptions are results of the computation.

    Times are integers counting microseconds: [1.e-3] seconds is [1000],
    [5.0] seconds is [5000000]. *)

From Stdlib Require Import ZArith Lia Ascii.
From Equations Require Import Equations.
From stdpp Require Import gmap strings list pretty.

Local Open Scope Z_scope.

(** ** Python values and callables *)

(** A [PV] instance is referred to by its position in the world's table of
    instances. *)
Abbreviation handle := nat.

(** The values that travel through the module untouched: what [get] and
    [put] return, what is handed to a callback.  [PyObj] stands for any
    object that is neither [None], an integer nor a string. *)
Inductive pyvalue : Type :=
| PyNone
| PyInt (z : Z)
| PyStr (s : string)
| PyObj (tag : nat).

(** The [writer] argument of [camonitor]: [sys.stdout.write] or a callable
    of the caller. *)
Inductive Writer : Type :=
| SysStdoutWrite
| UserWriter (fn : nat).

(** What can be attached to a [PV]: a callable of the caller, or the
    closure [callback] that [camonitor] builds around a writer. *)
Inductive Callback : Type :=
| UserCallback (fn : nat)
| GenericCallback (writer : Writer).

(** Calls made on the layers below, in program order. *)
Inductive Event : Type :=
| EvPV (h : handle) (pvname : string)
| EvConnect (h : handle)
| EvGet (h : handle) (as_string : bool)
| EvGetCtrlvars (h : handle)
| EvPut (h : handle) (value : pyvalue) (wait : bool) (timeout : Z)
| EvAddCallback (h : handle) (cb : Callback)
| EvClearCallbacks (h : handle)
| EvSleep (d : Z)
| EvUserCallback (fn : nat) (pvname value char_value : pyvalue).

Inductive Exn : Type :=
| AttributeError (attr : string)
| PVError (code : nat).

Inductive Res (A : Type) : Type :=
| Ret (a : A)
| Raise (e : Exn).
Arguments Ret {A} a.
Arguments Raise {A} e.

(** ** The world *)

Record PVobj : Type := mkPV {
  pv_pvname : string;
  pv_callbacks : list Callback
}.

Record World : Type := mkWorld {
  _Cache : gmap string handle;
  _Monitors : gmap string (option handle);
  objects : list PVobj;
  stdout : list string;
  user_output : list (nat * string);
  clock : Z;
  calls : list Event
}.

Definition with_Cache (c : gmap string handle) (w : World) : World :=
  mkWorld c (_Monitors w) (objects w) (stdout w) (user_output w) (clock w) (calls w).
Definition with_Monitors (m : gmap string (option handle)) (w : World) : World :=
  mkWorld (_Cache w) m (objects w) (stdout w) (user_output w) (clock w) (calls w).
Definition with_objects (o : list PVobj) (w : World) : World :=
  mkWorld (_Cache w) (_Monitors w) o (stdout w) (user_output w) (clock w) (calls w).
Definition with_stdout (s : list string) (w : World) : World :=
  mkWorld (_Cache w) (_Monitors w) (objects w) s (user_output w) (clock w) (calls w).
Definition with_user_output (u : list (nat * string)) (w : World) : World :=
  mkWorld (_Cache w) (_Monitors w) (objects w) (stdout w) u (clock w) (calls w).
Definition with_clock (t : Z) (w : World) : World :=
  mkWorld (_Cache w) (_Monitors w) (objects w) (stdout w) (user_output w) t (calls w).
Definition with_calls (l : list Event) (w : World) : World :=
  mkWorld (_Cache w) (_Monitors w) (objects w) (stdout w) (user_output w) (clock w) l.

Definition log (e : Event) (w : World) : World :=
  with_calls (calls w ++ [e]) w.

(** The state of a freshly imported module: both dictionaries empty. *)
Definition fresh_world : World :=
  mkWorld ∅ ∅ [] [] [] 0 [].

(** ** Computations that may raise *)

Definition M (A : Type) : Type := World -> Res A * World.

Definition ret {A} (a : A) : M A := fun w => (Ret a, w).
Definition raise {A} (e : Exn) : M A := fun w => (Raise e, w).
Definition bind {A B} (c : M A) (k : A -> M B) : M B :=
  fun w => match c w with
           | (Ret a, w') => k a w'
           | (Raise e, w') => (Raise e, w')
           end.
Definition gets {A} (f : World -> A) : M A := fun w => (Ret (f w), w).
Definition modify (f : World -> World) : M unit := fun w => (Ret tt, f w).

Notation "x <- c ;; k" := (bind c (fun x => k))
  (at level 100, c at next level, right associativity).
Notation "c ;;; k" := (bind c (fun _ => k))
  (at level 100, right associativity).

(** What a computation leaves behind, whatever its result. *)
Definition result {A} (r : Res A * World) : Res A := fst r.
Definition after {A} (r : Res A * World) : World := snd r.

(** ** The layers below

    [time], [sys.stdout] and the [pv] module are not part of this file.
    Their answers are given by a [Collaborator]: the state of the network
    and of the devices as functions of the time at which they are asked.
    Only [time.sleep] advances the clock; every other call is taken to be
    instantaneous. *)
Record Collaborator : Type := mkCollaborator {
  (** the [connected] attribute of an instance *)
  connected_at : handle -> Z -> bool;
  (** by how much a [time.sleep] begun at that time oversleeps *)
  sleep_overrun : Z -> Z;
  get_reply : handle -> bool -> Z -> Res pyvalue;
  get_ctrlvars_reply : handle -> Z -> Res pyvalue;
  put_reply : handle -> pyvalue -> bool -> Z -> Z -> Res pyvalue;
  (** the [info] attribute *)
  info_at : handle -> Z -> string;
  (** [pv.fmt_time()] *)
  fmt_time_at : Z -> string;
  (** [repr] *)
  py_repr : pyvalue -> string;
  (** [str] on what is not a string *)
  py_str_other : pyvalue -> string
}.

(** The line feed that Python writes as a backslash followed by [n]. *)
Definition LF : string := String "010"%char EmptyString.

(** [s[:n]] *)
Fixpoint str_take (n : nat) (s : string) : string :=
  match n, s with
  | S n', String c s' => String c (str_take n' s')
  | _, _ => EmptyString
  end.

Definition inspect {A} (a : A) : {b : A | a = b} := exist _ a eq_refl.

Section Session.

Context (env : Collaborator).

(** [str(v)] *)
Definition py_str (v : pyvalue) : string :=
  match v with
  | PyStr s => s
  | _ => py_str_other env v
  end.

(** *** [time] and [sys.stdout] *)

Definition time_time : M Z := gets clock.

(** [time.sleep(d)] suspends for at least [d]. *)
Definition sleep_world (d : Z) (w : World) : World :=
  log (EvSleep d) (with_clock (clock w + d + Z.max 0 (sleep_overrun env (clock w))) w).

Definition time_sleep (d : Z) : M unit := modify (sleep_world d).

Definition sys_stdout_write (s : string) : M unit :=
  modify (fun w => with_stdout (stdout w ++ [s]) w).

(** *** The [PV] class *)

(** Modelled from the spec: the constructor [PV(pvname)] of [pv.py]. A new
    instance is allocated; it has no callback yet. *)
Definition PV (pvname : string) : M handle :=
  fun w =>
    let h := length (objects w) in
    (Ret h, log (EvPV h pvname) (with_objects (objects w ++ [mkPV pvname []]) w)).

(** Modelled from the spec: [PV.connect], the non-blocking request that
    initiates the connection. *)
Definition connect (thispv : handle) : M unit :=
  modify (log (EvConnect thispv)).

(** Modelled from the spec: the [connected] attribute, an observable status. *)
Definition connected (thispv : handle) : M bool :=
  gets (fun w => connected_at env thispv (clock w)).

(** Modelled from the spec: [PV.get]; a failure of the layer below
    propagates as an exception. *)
Definition get (thispv : handle) (as_string : bool) : M pyvalue :=
  fun w => (get_reply env thispv as_string (clock w), log (EvGet thispv as_string) w).

(** Modelled from the spec: [PV.get_ctrlvars]. *)
Definition get_ctrlvars (thispv : handle) : M pyvalue :=
  fun w => (get_ctrlvars_reply env thispv (clock w), log (EvGetCtrlvars thispv) w).

(** Modelled from the spec: [PV.put]. *)
Definition put (thispv : handle) (value : pyvalue) (wait : bool) (timeout : Z) : M pyvalue :=
  fun w => (put_reply env thispv value wait timeout (clock w),
            log (EvPut thispv value wait timeout) w).

(** Modelled from the spec: the [info] attribute, a status string. *)
Definition info (thispv : handle) : M string :=
  gets (fun w => info_at env thispv (clock w)).

Definition attach (cb : Callback) (o : PVobj) : PVobj :=
  mkPV (pv_pvname o) (pv_callbacks o ++ [cb]).
Definition detach_all (o : PVobj) : PVobj :=
  mkPV (pv_pvname o) [].

(** Modelled from the spec: [PV.add_callback] subscribes one more callback
    to the change notifications of the instance. *)
Definition add_callback (thispv : handle) (cb : Callback) : M unit :=
  modify (fun w =>
    log (EvAddCallback thispv cb)
        (with_objects (alter (attach cb) thispv (objects w)) w)).

(** Modelled from the spec: [PV.clear_callbacks] unsubscribes the callbacks
    of the instance. *)
Definition clear_callbacks (thispv : handle) : M unit :=
  modify (fun w =>
    log (EvClearCallbacks thispv)
        (with_objects (alter detach_all thispv (objects w)) w)).

(** The callbacks an instance carries. *)
Definition callbacks_of (h : handle) (w : World) : list Callback :=
  match objects w !! h with
  | Some o => pv_callbacks o
  | None => []
  end.

(** *** [__createPV] *)

Definition poll_interval : Z := 1000.

(** Upper bound on the passes of the polling loop still to come. *)
Definition polls_left (start_time timeout : Z) (w : World) : nat :=
  Z.to_nat ((start_time + timeout - clock w) / poll_interval + 1).

(** The loop
[[
    while not thispv.connected:
        time.sleep(1.e-3)
        if time.time()-start_time > timeout:
            break
]]
    as a function on worlds. *)
Equations? poll_loop (thispv : handle) (start_time timeout : Z) (w : World) : World
  by wf (polls_left start_time timeout w) lt :=
poll_loop thispv start_time timeout w with connected_at env thispv (clock w) => {
  | true := w
  | false with inspect (clock (sleep_world poll_interval w) - start_time >? timeout) => {
      | exist _ true _ := sleep_world poll_interval w
      | exist _ false H :=
          poll_loop thispv start_time timeout (sleep_world poll_interval w) } }.
Proof.
  unfold polls_left, poll_interval in *. simpl in *.
  rewrite Z.gtb_ltb in H. apply Z.ltb_ge in H.
  clear poll_loop. Z.div_mod_to_equations. lia.
Qed.

Definition default_timeout : Z := 5000000.

Definition __createPV (pvname : string) (timeout : Z) : M (option handle) :=
  cache <- gets _Cache ;;
  match cache !! pvname with
  | Some thispv => ret (Some thispv)
  | None =>
      start_time <- time_time ;;
      thispv <- PV pvname ;;
      connect thispv ;;;
      modify (poll_loop thispv start_time timeout) ;;;
      c <- connected thispv ;;
      if negb c then
        sys_stdout_write ("cannot connect to " +:+ pvname +:+ LF) ;;;
        ret None
      else
        (* save this one for next time *)
        modify (fun w => with_Cache (<[pvname := thispv]> (_Cache w)) w) ;;;
        ret (Some thispv)
  end.

(** *** [caput], [caget], [cainfo] *)

(** [caput(pvname, value, wait=False, timeout=60)] *)
Definition caput (pvname : string) (value : pyvalue) (wait : bool) (timeout : Z)
  : M pyvalue :=
  thispv <- __createPV pvname default_timeout ;;
  match thispv with
  | Some thispv => put thispv value wait timeout
  | None => ret PyNone
  end.

(** [caget(pvname, as_string=False)] *)
Definition caget (pvname : string) (as_string : bool) : M pyvalue :=
  thispv <- __createPV pvname default_timeout ;;
  match thispv with
  | Some thispv =>
      val <- get thispv false ;;
      time_sleep 1000 ;;;
      if as_string then
        get_ctrlvars thispv ;;;
        time_sleep 1000 ;;;
        get thispv true
      else ret val
  | None => ret PyNone
  end.

(** [cainfo(pvname, print_out=True)] *)
Definition cainfo (pvname : string) (print_out : bool) : M pyvalue :=
  thispv <- __createPV pvname default_timeout ;;
  match thispv with
  | Some thispv =>
      get thispv false ;;;
      get_ctrlvars thispv ;;;
      if print_out then
        text <- info thispv ;;
        sys_stdout_write (text +:+ LF) ;;;
        ret PyNone
      else
        text <- info thispv ;;
        ret (PyStr text)
  | None => ret PyNone
  end.

(** *** [camonitor_clear], [camonitor] *)

(** [_Monitors[pvname].clear_callbacks()]: the attribute lookup fails on
    [None]. *)
Definition camonitor_clear (pvname : string) : M pyvalue :=
  monitors <- gets _Monitors ;;
  match monitors !! pvname with
  | Some (Some thispv) => clear_callbacks thispv ;;; ret PyNone
  | Some None => raise (AttributeError "clear_callbacks")
  | None => ret PyNone
  end.

Definition fmt_time : M string :=
  gets (fun w => fmt_time_at env (clock w)).

Definition call_writer (writer : Writer) (s : string) : M unit :=
  match writer with
  | SysStdoutWrite => sys_stdout_write s
  | UserWriter fn =>
      modify (fun w => with_user_output (user_output w ++ [(fn, s)]) w)
  end.

(** The inner function [callback] of [camonitor], closed over [writer]:
    [writer("%.32s %s %s\n" % (pvname, pv.fmt_time(), char_value))]. *)
Definition callback (writer : Writer) (pvname value char_value : pyvalue)
  : M pyvalue :=
  let char_value :=
    match char_value with
    | PyNone => PyStr (py_repr env value)
    | _ => char_value
    end in
  stamp <- fmt_time ;;
  call_writer writer
    (str_take 32 (py_str pvname) +:+ " " +:+ stamp +:+ " "
       +:+ py_str char_value +:+ LF) ;;;
  ret PyNone.

(** [camonitor(pvname, writer=None, callback=None)] *)
Definition camonitor (pvname : string) (writer : option Writer)
    (callback : option Callback) : M pyvalue :=
  let writer :=
    match writer with
    | None => SysStdoutWrite
    | Some writer => writer
    end in
  let callback :=
    match callback with
    | None => GenericCallback writer
    | Some callback => callback
    end in
  thispv <- __createPV pvname default_timeout ;;
  modify (fun w => with_Monitors (<[pvname := thispv]> (_Monitors w)) w) ;;;
  match thispv with
  | Some thispv =>
      get thispv false ;;;
      add_callback thispv callback ;;;
      ret PyNone
  | None => ret PyNone
  end.

(** *** Change notifications *)

Definition invoke (cb : Callback) (pvname value char_value : pyvalue)
  : M pyvalue :=
  match cb with
  | UserCallback fn =>
      modify (log (EvUserCallback fn pvname value char_value)) ;;;
      ret PyNone
  | GenericCallback writer => callback writer pvname value char_value
  end.

Fixpoint run_callbacks (cbs : list Callback) (pvname value char_value : pyvalue)
  : M unit :=
  match cbs with
  | [] => ret tt
  | cb :: cbs =>
      invoke cb pvname value char_value ;;;
      run_callbacks cbs pvname value char_value
  end.

(** Modelled from the spec: the event pump delivers one change of the
    instance [h] to every callback attached to it, with the keyword
    arguments [pvname], [value] and [char_value]. *)
Definition notify (h : handle) (value char_value : pyvalue) : M unit :=
  objs <- gets objects ;;
  match objs !! h with
  | Some o => run_callbacks (pv_callbacks o) (PyStr (pv_pvname o)) value char_value
  | None => ret tt
  end.

End Session.

(** ** Notions used in the statements *)

(** The handle that the next [PV(...)] will return. *)
Definition next_handle (w : World) : handle := length (objects w).

(** The world right after [thispv = PV(pvname)] and [thispv.connect()]. *)
Definition launched (pvname : string) (w : World) : World :=
  log (EvConnect (next_handle w))
    (log (EvPV (next_handle w) pvname)
       (with_objects (objects w ++ [mkPV pvname []]) w)).

(** The diagnostic of [__createPV]. *)
Definition cannot_connect (pvname : string) : string :=
  "cannot connect to " +:+ pvname +:+ LF.

(** The callback that [camonitor] attaches for given arguments. *)
Definition chosen_callback (writer : option Writer) (callback : option Callback)
  : Callback :=
  match callback with
  | Some cb => cb
  | None => GenericCallback (default SysStdoutWrite writer)
  end.

(** The PV name of an instance. *)
Definition name_of (h : handle) (w : World) : option string :=
  pv_pvname <$> objects w !! h.

Definition is_connect_of (pvname : string) (w : World) (e : Event) : bool :=
  match e with
  | EvConnect h => bool_decide (name_of h w = Some pvname)
  | _ => false
  end.

(** How many [connect()] calls were issued so far on instances of a name. *)
Definition connect_attempts (pvname : string) (w : World) : nat :=
  length (List.filter (is_connect_of pvname w) (calls w)).

(** What a writer has received so far. *)
Definition written_by (writer : Writer) (w : World) : list string :=
  match writer with
  | SysStdoutWrite => stdout w
  | UserWriter fn =>
      snd <$> List.filter (fun p => Nat.eqb (fst p) fn) (user_output w)
  end.

(** The two dictionaries only hold handles of instances that exist, under
    the name the instance was made for, and a monitored instance is the
    cached one. *)
Definition consistent (w : World) : Prop :=
  (forall pvname h, _Cache w !! pvname = Some h -> name_of h w = Some pvname) /\
  (forall pvname h, _Monitors w !! pvname = Some (Some h) ->
     _Cache w !! pvname = Some h).

(** A computation that keeps the dictionaries consistent, whether it
    returns or raises. *)
Definition preserves {A} (c : M A) : Prop :=
  forall w, consistent w -> consistent (after (c w)).

(** The worlds a session can be in: the module is loaded at some time, and
    then the caller uses its functions, sleeps ([epics.sleep]) or lets the
    event pump ([epics.poll]) deliver a change to the callbacks of an
    instance. *)
Inductive reachable (env : Collaborator) : World -> Prop :=
| reach_import (t : Z) :
    reachable env (with_clock t fresh_world)
| reach_caget w pvname as_string :
    reachable env w -> reachable env (after (caget env pvname as_string w))
| reach_caput w pvname value wait timeout :
    reachable env w -> reachable env (after (caput env pvname value wait timeout w))
| reach_cainfo w pvname print_out :
    reachable env w -> reachable env (after (cainfo env pvname print_out w))
| reach_camonitor w pvname writer callback :
    reachable env w -> reachable env (after (camonitor env pvname writer callback w))
| reach_camonitor_clear w pvname :
    reachable env w -> reachable env (after (camonitor_clear pvname w))
| reach_sleep w d :
    0 <= d -> reachable env w -> reachable env (sleep_world env d w)
| reach_poll w h value char_value :
    reachable env w -> reachable env (after (notify env h value char_value w)).

(** ** Collaborators for the examples *)

Definition example_repr (v : pyvalue) : string :=
  match v with
  | PyNone => "None"
  | PyInt z => pretty z
  | PyStr s => "'" +:+ s +:+ "'"
  | PyObj _ => "<object>"
  end.

(** Nothing ever connects. *)
Definition dead_env : Collaborator :=
  mkCollaborator (fun _ _ => false) (fun _ => 0)
    (fun _ _ _ => Ret PyNone) (fun _ _ => Ret PyNone) (fun _ _ _ _ _ => Ret PyNone)
    (fun _ _ => "unconnected") (fun _ => "00:00:00.000")
    example_repr example_repr.

(** Every channel is connected from the start; [get] answers [7], or the
    string [7.000] when asked for the formatted form. *)
Definition live_env : Collaborator :=
  mkCollaborator (fun _ _ => true) (fun _ => 0)
    (fun _ as_string _ => Ret (if as_string then PyStr "7.000" else PyInt 7))
    (fun _ _ => Ret PyNone) (fun _ _ _ _ _ => Ret (PyInt 1))
    (fun _ _ => "== X.VAL ==") (fun _ => "00:00:00.000")
    example_repr example_repr.

(** Every channel connects three milliseconds after time zero. *)
Definition slow_env : Collaborator :=
  mkCollaborator (fun _ t => 3000 <=? t) (fun _ => 0)
    (fun _ _ _ => Ret (PyInt 7)) (fun _ _ => Ret PyNone)
    (fun _ _ _ _ _ => Ret (PyInt 1))
    (fun _ _ => "== X.VAL ==") (fun _ => "00:00:00.000")
    example_repr example_repr.

(** ** Notions for a session as a whole *)

(** One step of a session: a call of one of the five functions, a sleep
    of the caller, or a change delivered by the event pump. *)
Inductive session_step (env : Collaborator) : World -> World -> Prop :=
| step_caget w pvname as_string :
    session_step env w (after (caget env pvname as_string w))
| step_caput w pvname value wait timeout :
    session_step env w (after (caput env pvname value wait timeout w))
| step_cainfo w pvname print_out :
    session_step env w (after (cainfo env pvname print_out w))
| step_camonitor w pvname writer callback :
    session_step env w (after (camonitor env pvname writer callback w))
| step_camonitor_clear w pvname :
    session_step env w (after (camonitor_clear pvname w))
| step_sleep w d :
    0 <= d -> session_step env w (sleep_world env d w)
| step_poll w h value char_value :
    session_step env w (after (notify env h value char_value w)).

(** [w'] has everything [w] has: the entries of [_Cache], the keys of
    [_Monitors], the instances under their names, and what was written to
    [sys.stdout]. *)
Definition extends (w w' : World) : Prop :=
  _Cache w ⊆ _Cache w' /\
  (forall pvname, is_Some (_Monitors w !! pvname) ->
                  is_Some (_Monitors w' !! pvname)) /\
  (forall h pvname, name_of h w = Some pvname -> name_of h w' = Some pvname) /\
  stdout w `prefix_of` stdout w'.

(** A step that leaves the dictionaries and the instances alone and can
    only have written to [sys.stdout]. *)
Definition inert (w w' : World) : Prop :=
  _Cache w' = _Cache w /\ _Monitors w' = _Monitors w /\
  objects w' = objects w /\ stdout w `prefix_of` stdout w'.

(** A step that leaves the dictionaries and the names of the instances
    alone; the callbacks of an instance may have changed. *)
Definition calm (w w' : World) : Prop :=
  _Cache w' = _Cache w /\ _Monitors w' = _Monitors w /\
  (forall h, name_of h w' = name_of h w) /\ stdout w `prefix_of` stdout w'.

(** A computation that relates the world it leaves to the world it found,
    whether it returns or raises. *)
Definition steps_in (R : World -> World -> Prop) {A} (c : M A) : Prop :=
  forall w, R w (after (c w)).

(** The registry and the callbacks of every instance are as before. *)
Definition untouched_monitors (w w' : World) : Prop :=
  _Monitors w' = _Monitors w /\
  forall h, callbacks_of h w' = callbacks_of h w.

(** The entries of every other name are as before. *)
Definition same_elsewhere (pvname : string) (w w' : World) : Prop :=
  forall other, other <> pvname ->
    _Cache w' !! other = _Cache w !! other /\
    _Monitors w' !! other = _Monitors w !! other.

(** What the two dictionaries hold for a name. *)
Definition entries_of (pvname : string) (w : World)
  : option handle * option (option handle) :=
  (_Cache w !! pvname, _Monitors w !! pvname).

(** ** More collaborators for the examples *)

(** Every channel is connected, and every [get()] fails. *)
Definition failing_get_env : Collaborator :=
  mkCollaborator (fun _ _ => true) (fun _ => 0)
    (fun _ _ _ => Raise (PVError 1)) (fun _ _ => Ret PyNone)
    (fun _ _ _ _ _ => Ret (PyInt 1))
    (fun _ _ => "== X.VAL ==") (fun _ => "00:00:00.000")
    example_repr example_repr.

(** Every channel is connected, and every [get_ctrlvars()] fails. *)
Definition failing_ctrlvars_env : Collaborator :=
  mkCollaborator (fun _ _ => true) (fun _ => 0)
    (fun _ _ _ => Ret (PyInt 7)) (fun _ _ => Raise (PVError 2))
    (fun _ _ _ _ _ => Ret (PyInt 1))
    (fun _ _ => "== X.VAL ==") (fun _ => "00:00:00.000")
    example_repr example_repr.

(** A channel that connects half a millisecond after a deadline of five
    seconds counted from time zero. *)
Definition late_env : Collaborator :=
  mkCollaborator (fun _ t => 5000500 <=? t) (fun _ => 0)
    (fun _ _ _ => Ret (PyInt 7)) (fun _ _ => Ret PyNone)
    (fun _ _ _ _ _ => Ret (PyInt 1))
    (fun _ _ => "== X.VAL ==") (fun _ => "00:00:00.000")
    example_repr example_repr.

(** A channel that connects six seconds after time zero. *)
Definition tardy_env : Collaborator :=
  mkCollaborator (fun _ t => 6000000 <=? t) (fun _ => 0)
    (fun _ _ _ => Ret (PyInt 7)) (fun _ _ => Ret PyNone)
    (fun _ _ _ _ _ => Ret (PyInt 1))
    (fun _ _ => "== X.VAL ==") (fun _ => "00:00:00.000")
    example_repr example_repr.

(** ** The log of a session *)

(** Calls other than making an instance and connecting it. *)
Definition plain_event (e : Event) : Prop :=
  match e with
  | EvPV _ _ | EvConnect _ => False
  | _ => True
  end.

(** The call is neither [PV(pvname)] nor a [connect()] on an instance of
    that name. *)
Definition spares (pvname : string) (w : World) (e : Event) : Prop :=
  match e with
  | EvPV _ n => n <> pvname
  | EvConnect h => exists n, name_of h w = Some n /\ n <> pvname
  | _ => True
  end.

(** The calls made between two worlds all satisfy [P]. *)
Definition logs (P : Event -> Prop) (w w' : World) : Prop :=
  exists l, calls w' = calls w ++ l /\ Forall P l.

(** ** The polling loop *)

Section PollLoop.

Context (env : Collaborator) (thispv : handle) (start_time timeout : Z).

Lemma poll_loop_step (w : World) :
  poll_loop env thispv start_time timeout w =
  if connected_at env thispv (clock w) then w
  else if clock (sleep_world env poll_interval w) - start_time >? timeout
       then sleep_world env poll_interval w
       else poll_loop env thispv start_time timeout (sleep_world env poll_interval w).
Proof.
  rewrite poll_loop_equation_1.
  destruct (connected_at env thispv (clock w)); simpl; [reflexivity|].
  destruct (_ >? _); reflexivity.
Qed.

(** Induction along the passes of the loop: the loop is left at once when
    the instance is connected, it is left after one more sleep when the
    time is up, and otherwise it goes round again. *)
Lemma poll_loop_passes (P : World -> World -> Prop) :
  (forall w, connected_at env thispv (clock w) = true -> P w w) ->
  (forall w, connected_at env thispv (clock w) = false ->
     timeout < clock (sleep_world env poll_interval w) - start_time ->
     P w (sleep_world env poll_interval w)) ->
  (forall w w', connected_at env thispv (clock w) = false ->
     clock (sleep_world env poll_interval w) - start_time <= timeout ->
     P (sleep_world env poll_interval w) w' -> P w w') ->
  forall w, P w (poll_loop env thispv start_time timeout w).
Proof.
  intros Hconn Hbreak Hagain w.
  remember (polls_left start_time timeout w) as n eqn:Hn.
  revert w Hn. induction n as [n IH] using lt_wf_ind. intros w Hn.
  rewrite poll_loop_step.
  destruct (connected_at env thispv (clock w)) eqn:Hc; [by apply Hconn|].
  destruct (_ >? _) eqn:Hgt; rewrite Z.gtb_ltb in Hgt.
  - apply Hbreak; [done|]. by apply Z.ltb_lt.
  - apply Z.ltb_ge in Hgt. apply Hagain; [done..|].
    eapply IH; [|reflexivity]. subst n.
    unfold polls_left, poll_interval in *. simpl in *.
    Z.div_mod_to_equations. lia.
Qed.

Lemma clock_sleep_world (d : Z) (w : World) :
  clock (sleep_world env d w) = clock w + d + Z.max 0 (sleep_overrun env (clock w)).
Proof. reflexivity. Qed.

(** The loop does nothing but sleep: the dictionaries, the instances and
    the output are as before. *)
Lemma poll_loop_frame (w : World) :
  let w' := poll_loop env thispv start_time timeout w in
  _Cache w' = _Cache w /\ _Monitors w' = _Monitors w /\ objects w' = objects w /\
  stdout w' = stdout w /\ user_output w' = user_output w /\
  clock w <= clock w' /\
  exists n, calls w' = calls w ++ replicate n (EvSleep poll_interval).
Proof.
  pattern w, (poll_loop env thispv start_time timeout w).
  apply poll_loop_passes; clear w.
  - intros w _. repeat split; try lia. exists 0%nat. simpl. by rewrite app_nil_r.
  - intros w _ _. cbv beta zeta. rewrite clock_sleep_world.
    repeat split; try (unfold poll_interval; lia).
    by exists 1%nat.
  - intros w w' _ _ (HC & HM & HO & HS & HU & Hclk & n & Hcalls).
    cbv beta zeta in *. rewrite clock_sleep_world in Hclk.
    repeat split; try done; try (unfold poll_interval in *; lia).
    exists (S n). rewrite Hcalls. simpl. by rewrite <- app_assoc.
Qed.

(** When the loop is left, the instance is connected or the time is up. *)
Lemma poll_loop_exit (w : World) :
  let w' := poll_loop env thispv start_time timeout w in
  connected_at env thispv (clock w') = true \/ timeout < clock w' - start_time.
Proof.
  pattern w, (poll_loop env thispv start_time timeout w).
  apply poll_loop_passes; clear w; auto.
Qed.

(** An instance that never connects keeps the loop going until the time is
    up, and not for longer than one sleep beyond. *)
Lemma poll_loop_never_connected (lag : Z) (w : World) :
  (forall t, connected_at env thispv t = false) ->
  (forall t, sleep_overrun env t <= lag) ->
  0 <= lag ->
  clock w - start_time <= timeout ->
  let w' := poll_loop env thispv start_time timeout w in
  timeout < clock w' - start_time <= timeout + poll_interval + lag.
Proof.
  intros Hdead Hlag Hlag0. pattern w, (poll_loop env thispv start_time timeout w).
  apply poll_loop_passes; clear w.
  - intros w Hc. by rewrite Hdead in Hc.
  - intros w _ Hup Hin. cbv beta zeta in *. rewrite clock_sleep_world in *.
    specialize (Hlag (clock w)). lia.
  - intros w w' _ Hin IH _. by apply IH.
Qed.

End PollLoop.

(** ** Resolution of a name: [__createPV] *)

Section Resolution.

Context (env : Collaborator).

(** A cached name is answered from the cache and nothing else happens. *)
Lemma createPV_hit (pvname : string) (timeout : Z) (w : World) (h : handle) :
  _Cache w !! pvname = Some h ->
  __createPV env pvname timeout w = (Ret (Some h), w).
Proof. intros H. unfold __createPV, bind, gets, ret. by rewrite H. Qed.

(** A name that is not cached: what [__createPV] does, in one equation. *)
Lemma createPV_miss (pvname : string) (timeout : Z) (w : World) :
  _Cache w !! pvname = None ->
  let h := next_handle w in
  let w1 := poll_loop env h (clock w) timeout (launched pvname w) in
  __createPV env pvname timeout w =
  if connected_at env h (clock w1)
  then (Ret (Some h), with_Cache (<[pvname := h]> (_Cache w1)) w1)
  else (Ret None, with_stdout (stdout w1 ++ [cannot_connect pvname]) w1).
Proof.
  intros H. unfold __createPV, bind, gets, ret. rewrite H. simpl.
  fold (next_handle w). fold (launched pvname w).
  by destruct (connected_at env _ _).
Qed.

Lemma launched_frame (pvname : string) (w : World) :
  _Cache (launched pvname w) = _Cache w /\
  _Monitors (launched pvname w) = _Monitors w /\
  objects (launched pvname w) = objects w ++ [mkPV pvname []] /\
  stdout (launched pvname w) = stdout w /\
  user_output (launched pvname w) = user_output w /\
  clock (launched pvname w) = clock w.
Proof. done. Qed.

(** A resolution that fails: the diagnostic is written, nothing is cached. *)
Lemma createPV_unreachable (pvname : string) (timeout : Z) (w : World) :
  _Cache w !! pvname = None ->
  (forall t, connected_at env (next_handle w) t = false) ->
  let r := __createPV env pvname timeout w in
  result r = Ret None /\
  _Cache (after r) = _Cache w /\
  _Monitors (after r) = _Monitors w /\
  stdout (after r) = stdout w ++ [cannot_connect pvname] /\
  user_output (after r) = user_output w.
Proof.
  intros Hmiss Hdead. cbv zeta. rewrite createPV_miss by done. cbv zeta.
  rewrite Hdead. simpl.
  destruct (poll_loop_frame env (next_handle w) (clock w) timeout (launched pvname w))
    as (HC & HM & HO & HS & HU & _).
  by rewrite HC, HM, HS, HU.
Qed.

(** A resolution that succeeds: the handle is in the cache, nothing was
    written. *)
Lemma createPV_success (pvname : string) (timeout : Z) (w w1 : World) (h : handle) :
  __createPV env pvname timeout w = (Ret (Some h), w1) ->
  _Cache w1 !! pvname = Some h /\
  _Monitors w1 = _Monitors w /\
  stdout w1 = stdout w /\
  user_output w1 = user_output w.
Proof.
  destruct (_Cache w !! pvname) as [h0|] eqn:Hc.
  - rewrite (createPV_hit _ _ _ _ Hc). intros [= <- <-]. done.
  - rewrite createPV_miss by done. cbv zeta.
    destruct (poll_loop_frame env (next_handle w) (clock w) timeout (launched pvname w))
      as (HC & HM & HO & HS & HU & _).
    destruct (connected_at env _ _); intros [= <- <-]; simpl.
    rewrite lookup_insert_eq. by rewrite HM, HS, HU.
Qed.

End Resolution.

(** ** Names that cannot be reached *)

(** Unfolds a public function whose resolution step is known. *)
Ltac resolved_as E :=
  unfold caget, caput, cainfo, camonitor, bind; rewrite E; simpl.

(** C2, as stated, fails.  The channel of [late_env] does not report
    connected at any time within the timeout of five seconds; it comes up
    half a millisecond after the deadline, during the last sleep of the
    loop.  The test made after the loop finds it connected: [caget] returns
    the value and no diagnostic is written. *)
Lemma late_connection_is_resolved :
  (forall t, t <= clock fresh_world + default_timeout ->
             connected_at late_env (next_handle fresh_world) t = false) /\
  result (caget late_env "X.VAL" false fresh_world) = Ret (PyInt 7) /\
  stdout (after (caget late_env "X.VAL" false fresh_world)) = [].
Proof.
  split; [|split].
  - intros t Ht. simpl in *. apply Z.leb_gt. unfold default_timeout in Ht. lia.
  - vm_compute. reflexivity.
  - vm_compute. reflexivity.
Qed.

(** C2, amended. When the instance made for a name that is not cached does
    not report connected at any time from the start of the resolution until
    the wait has ended (the moment of the test made after the loop), then
    [caget], [caput], [cainfo] and [camonitor] all return [None], raise
    nothing, and each writes exactly one line to [sys.stdout], the
    diagnostic of [__createPV]. *)
Theorem unconnected_yields_None (env : Collaborator) (w : World) (pvname : string) :
  _Cache w !! pvname = None ->
  (forall t,
     clock w <= t <= clock (after (__createPV env pvname default_timeout w)) ->
     connected_at env (next_handle w) t = false) ->
  (forall as_string,
     result (caget env pvname as_string w) = Ret PyNone /\
     stdout (after (caget env pvname as_string w))
       = stdout w ++ [cannot_connect pvname]) /\
  (forall value wait timeout,
     result (caput env pvname value wait timeout w) = Ret PyNone /\
     stdout (after (caput env pvname value wait timeout w))
       = stdout w ++ [cannot_connect pvname]) /\
  (forall print_out,
     result (cainfo env pvname print_out w) = Ret PyNone /\
     stdout (after (cainfo env pvname print_out w))
       = stdout w ++ [cannot_connect pvname]) /\
  (forall writer callback,
     result (camonitor env pvname writer callback w) = Ret PyNone /\
     stdout (after (camonitor env pvname writer callback w))
       = stdout w ++ [cannot_connect pvname]).
Proof.
  intros Hmiss Hquiet.
  assert (E : __createPV env pvname default_timeout w
              = (Ret None,
                 with_stdout
                   (stdout (poll_loop env (next_handle w) (clock w) default_timeout
                              (launched pvname w)) ++ [cannot_connect pvname])
                   (poll_loop env (next_handle w) (clock w) default_timeout
                      (launched pvname w)))).
  { rewrite createPV_miss in Hquiet |- * by done. cbv zeta in *.
    destruct (poll_loop_frame env (next_handle w) (clock w) default_timeout
                (launched pvname w)) as (_ & _ & _ & _ & _ & Hclk & _).
    simpl in Hclk.
    destruct (connected_at env _ _) eqn:Hc; [|done].
    simpl in Hquiet. rewrite Hquiet in Hc by lia. done. }
  destruct (poll_loop_frame env (next_handle w) (clock w) default_timeout
              (launched pvname w)) as (_ & _ & _ & Hout & _).
  simpl in Hout.
  repeat split; intros; resolved_as E; by rewrite ?Hout.
Qed.

Lemma unconnected_yields_None_witness :
  _Cache fresh_world !! "X.VAL" = None /\
  (forall t,
     clock fresh_world <= t
       <= clock (after (__createPV tardy_env "X.VAL" default_timeout fresh_world)) ->
     connected_at tardy_env (next_handle fresh_world) t = false) /\
  result (caget tardy_env "X.VAL" true fresh_world) = Ret PyNone /\
  stdout (after (caget tardy_env "X.VAL" true fresh_world))
    = stdout fresh_world ++ [cannot_connect "X.VAL"].
Proof.
  assert (Hend : clock (after (__createPV tardy_env "X.VAL" default_timeout
                                 fresh_world)) = 5001000)
    by (vm_compute; reflexivity).
  assert (Hquiet : forall t,
     clock fresh_world <= t
       <= clock (after (__createPV tardy_env "X.VAL" default_timeout fresh_world)) ->
     connected_at tardy_env (next_handle fresh_world) t = false).
  { intros t Ht. rewrite Hend in Ht. simpl. apply Z.leb_gt. lia. }
  split; [reflexivity|]. split; [exact Hquiet|].
  destruct (unconnected_yields_None tardy_env fresh_world "X.VAL" eq_refl Hquiet)
    as (Hget & _).
  exact (Hget true).
Defined.

(** C8. The resolution of a name whose instance never reports connected
    returns [None] once the time is up and at most one sleep later: with
    sleeps that last the polling interval and at most [lag] more, the clock
    has advanced by more than [timeout] and by no more than
    [timeout + poll_interval + lag].  The loop is a total function, so the
    wait always ends. *)
Theorem resolution_time_bound (env : Collaborator) (w : World) (pvname : string)
    (timeout lag : Z) :
  _Cache w !! pvname = None ->
  (forall t, connected_at env (next_handle w) t = false) ->
  0 <= timeout ->
  0 <= lag ->
  (forall t, sleep_overrun env t <= lag) ->
  result (__createPV env pvname timeout w) = Ret None /\
  timeout < clock (after (__createPV env pvname timeout w)) - clock w
    <= timeout + poll_interval + lag.
Proof.
  intros Hmiss Hdead Ht Hlag0 Hlag.
  split; [by apply createPV_unreachable|].
  rewrite createPV_miss by done. cbv zeta. rewrite Hdead. simpl.
  apply poll_loop_never_connected; try done. simpl. lia.
Qed.

Lemma resolution_time_bound_witness :
  _Cache fresh_world !! "X.VAL" = None /\
  (forall t, connected_at dead_env (next_handle fresh_world) t = false) /\
  0 <= default_timeout /\
  0 <= 0 /\
  (forall t, sleep_overrun dead_env t <= 0) /\
  result (__createPV dead_env "X.VAL" default_timeout fresh_world) = Ret None /\
  default_timeout
    < clock (after (__createPV dead_env "X.VAL" default_timeout fresh_world))
      - clock fresh_world
    <= default_timeout + poll_interval + 0.
Proof.
  assert (Htimeout : 0 <= default_timeout) by (unfold default_timeout; lia).
  assert (Hlag : forall t, sleep_overrun dead_env t <= 0) by (intros t; simpl; lia).
  split; [reflexivity|]. split; [reflexivity|]. split; [exact Htimeout|].
  split; [lia|]. split; [exact Hlag|].
  exact (resolution_time_bound dead_env fresh_world "X.VAL" default_timeout 0
           eq_refl (fun _ => eq_refl) Htimeout (Z.le_refl 0) Hlag).
Defined.

(** ** What the cache holds *)



(** The failure of one resolution does not bar the next one: the channel of
    [slow_env] is missed with a timeout of one millisecond and found
    by the second attempt. *)
Example retry_after_timeout :
  let first := __createPV slow_env "X.VAL" 1000 fresh_world in
  result first = Ret None /\
  result (__createPV slow_env "X.VAL" 1000 (after first)) = Ret (Some 1%nat).
Proof. vm_compute. done. Qed.

(** C3, as stated, fails: a resolution that timed out is not cached, so the
    next resolution of the name makes a new instance and issues a second
    [connect()]; here it also returns a handle where the first returned
    [None]. *)
Lemma resolution_connects_again :
  let first := __createPV slow_env "X.VAL" 1000 fresh_world in
  let second := __createPV slow_env "X.VAL" 1000 (after first) in
  result first <> result second /\
  connect_attempts "X.VAL" (after second) = 2%nat.
Proof. vm_compute. split; [discriminate|reflexivity]. Qed.

(** ** [cainfo] and [caget] on a name that resolves *)

(** C6. For a name that resolves, and when [get] and [get_ctrlvars] return,
    [cainfo] with [print_out=True] writes the [info] string followed by a
    line feed to [sys.stdout] and returns [None]; with [print_out=False] it
    returns that same string and writes nothing. *)
Theorem cainfo_print_or_return (env : Collaborator) (w w1 : World)
    (pvname : string) (h : handle) :
  __createPV env pvname default_timeout w = (Ret (Some h), w1) ->
  (exists v, get_reply env h false (clock w1) = Ret v) ->
  (exists c, get_ctrlvars_reply env h (clock w1) = Ret c) ->
  (result (cainfo env pvname true w) = Ret PyNone /\
   stdout (after (cainfo env pvname true w))
     = stdout w ++ [info_at env h (clock w1) +:+ LF]) /\
  (result (cainfo env pvname false w) = Ret (PyStr (info_at env h (clock w1))) /\
   stdout (after (cainfo env pvname false w)) = stdout w).
Proof.
  intros Hres [v Hv] [c Hc].
  destruct (createPV_success env _ _ _ _ _ Hres) as (_ & _ & Hout & _).
  repeat split; resolved_as Hres; unfold get, get_ctrlvars; simpl;
    rewrite Hv, Hc; simpl; by rewrite ?Hout.
Qed.

Lemma cainfo_print_or_return_witness :
  let w1 := after (__createPV live_env "X.VAL" default_timeout fresh_world) in
  __createPV live_env "X.VAL" default_timeout fresh_world = (Ret (Some 0%nat), w1) /\
  (exists v, get_reply live_env 0%nat false (clock w1) = Ret v) /\
  (exists c, get_ctrlvars_reply live_env 0%nat (clock w1) = Ret c) /\
  (result (cainfo live_env "X.VAL" true fresh_world) = Ret PyNone /\
   stdout (after (cainfo live_env "X.VAL" true fresh_world))
     = stdout fresh_world ++ [info_at live_env 0%nat (clock w1) +:+ LF]) /\
  (result (cainfo live_env "X.VAL" false fresh_world)
     = Ret (PyStr (info_at live_env 0%nat (clock w1))) /\
   stdout (after (cainfo live_env "X.VAL" false fresh_world)) = stdout fresh_world).
Proof.
  assert (H : __createPV live_env "X.VAL" default_timeout fresh_world
              = (Ret (Some 0%nat),
                 after (__createPV live_env "X.VAL" default_timeout fresh_world))).
  { vm_compute. reflexivity. }
  assert (Hv : exists v, get_reply live_env 0%nat false
                 (clock (after (__createPV live_env "X.VAL" default_timeout fresh_world)))
               = Ret v) by (eexists; reflexivity).
  assert (Hc : exists c, get_ctrlvars_reply live_env 0%nat
                 (clock (after (__createPV live_env "X.VAL" default_timeout fresh_world)))
               = Ret c) by (eexists; reflexivity).
  split; [exact H|]. split; [exact Hv|]. split; [exact Hc|].
  exact (cainfo_print_or_return live_env fresh_world _ "X.VAL" 0%nat H Hv Hc).
Defined.

(** C7. For a name that resolves, [caget] with [as_string=False] hands back
    what [get()] answered (its value, or its exception).  With
    [as_string=True], and when the first [get()] and [get_ctrlvars()]
    return, the calls made on the instance are [get()], [get_ctrlvars()]
    once, and [get(as_string=True)], with a sleep of a millisecond after
    each of the first two, and the answer of the last call is returned. *)
Theorem caget_passes_through (env : Collaborator) (w w1 : World)
    (pvname : string) (h : handle) :
  __createPV env pvname default_timeout w = (Ret (Some h), w1) ->
  result (caget env pvname false w) = get_reply env h false (clock w1) /\
  forall v c,
    get_reply env h false (clock w1) = Ret v ->
    get_ctrlvars_reply env h (clock (sleep_world env 1000 w1)) = Ret c ->
    result (caget env pvname true w)
      = get_reply env h true (clock (after (caget env pvname true w))) /\
    calls (after (caget env pvname true w))
      = calls w1 ++ [EvGet h false; EvSleep 1000; EvGetCtrlvars h;
                     EvSleep 1000; EvGet h true].
Proof.
  intros Hres. split.
  - resolved_as Hres. unfold get. by destruct (get_reply env h false (clock w1)).
  - intros v c Hv Hc. resolved_as Hres. unfold get, get_ctrlvars. simpl.
    rewrite Hv. simpl in *. rewrite Hc. simpl.
    split; [reflexivity|]. by rewrite <- !app_assoc.
Qed.

Lemma caget_passes_through_witness :
  let w1 := after (__createPV live_env "X.VAL" default_timeout fresh_world) in
  __createPV live_env "X.VAL" default_timeout fresh_world = (Ret (Some 0%nat), w1) /\
  result (caget live_env "X.VAL" false fresh_world)
    = get_reply live_env 0%nat false (clock w1) /\
  result (caget live_env "X.VAL" true fresh_world)
    = get_reply live_env 0%nat true
        (clock (after (caget live_env "X.VAL" true fresh_world))) /\
  calls (after (caget live_env "X.VAL" true fresh_world))
    = calls w1 ++ [EvGet 0%nat false; EvSleep 1000; EvGetCtrlvars 0%nat;
                   EvSleep 1000; EvGet 0%nat true].
Proof.
  assert (H : __createPV live_env "X.VAL" default_timeout fresh_world
              = (Ret (Some 0%nat),
                 after (__createPV live_env "X.VAL" default_timeout fresh_world))).
  { vm_compute. reflexivity. }
  destruct (caget_passes_through live_env fresh_world _ "X.VAL" 0%nat H)
    as [Hraw Hstr].
  destruct (Hstr (PyInt 7) PyNone eq_refl eq_refl) as [Hret Hcalls].
  split; [exact H|]. split; [exact Hraw|]. split; [exact Hret|exact Hcalls].
Defined.

(** ** The default callback *)

Lemma str_take_prefix (n : nat) (s : string) :
  exists rest, s = str_take n s +:+ rest.
Proof.
  revert s. induction n as [|n IH]; intros s.
  - by exists s.
  - destruct s as [|c s]; [by exists EmptyString|].
    destruct (IH s) as [rest Hrest]. exists rest.
    change (String c s = String c (str_take n s +:+ rest)). by rewrite <- Hrest.
Qed.

Lemma str_take_length (n : nat) (s : string) :
  String.length (str_take n s) = Nat.min n (String.length s).
Proof.
  revert s. induction n as [|n IH]; intros s; [done|].
  destruct s as [|c s]; [done|]. simpl. by rewrite IH.
Qed.

Lemma written_by_call_writer (writer : Writer) (s : string) (w : World) :
  written_by writer (after (call_writer writer s w)) = written_by writer w ++ [s].
Proof.
  destruct writer as [|fn]; [done|]. simpl.
  rewrite List.filter_app, fmap_app. simpl. by rewrite Nat.eqb_refl.
Qed.

Lemma callback_unfold (env : Collaborator) (writer : Writer)
    (pvname value char_value : pyvalue) (w : World) :
  callback env writer pvname value char_value w =
  (Ret PyNone,
   after (call_writer writer
            (str_take 32 (py_str env pvname) +:+ " " +:+ fmt_time_at env (clock w)
               +:+ " "
               +:+ py_str env match char_value with
                              | PyNone => PyStr (py_repr env value)
                              | _ => char_value
                              end
               +:+ LF) w)).
Proof. by destruct writer. Qed.

(** C10. One call of the default callback hands one string to the writer:
    the first 32 characters of [str(pvname)] (all of them when there are
    fewer), a space, the time stamp of [pv.fmt_time()], a space, the
    formatted value and a line feed, where the formatted value is
    [repr(value)] when [char_value] is [None] and [str(char_value)]
    otherwise.  The callback returns [None]. *)
Theorem callback_writes_one_line (env : Collaborator) (writer : Writer)
    (pvname value char_value : pyvalue) (w : World) :
  result (callback env writer pvname value char_value w) = Ret PyNone /\
  exists name32 rest,
    py_str env pvname = name32 +:+ rest /\
    String.length name32 = Nat.min 32 (String.length (py_str env pvname)) /\
    written_by writer (after (callback env writer pvname value char_value w))
    = written_by writer w ++
      [name32 +:+ " " +:+ fmt_time_at env (clock w) +:+ " "
         +:+ match char_value with
             | PyNone => py_repr env value
             | _ => py_str env char_value
             end
         +:+ LF].
Proof.
  split; [by destruct writer|].
  destruct (str_take_prefix 32 (py_str env pvname)) as [rest Hrest].
  exists (str_take 32 (py_str env pvname)), rest.
  split; [exact Hrest|]. split; [apply str_take_length|].
  rewrite callback_unfold. unfold after at 1. cbv [snd].
  rewrite written_by_call_writer. by destruct char_value.
Qed.

(** ** The dictionaries stay consistent *)

Section Consistency.

Context (env : Collaborator).

Lemma preserves_bind {A B} (c : M A) (k : A -> M B) :
  preserves c -> (forall a, preserves (k a)) -> preserves (bind c k).
Proof.
  intros Hc Hk w Hw. unfold bind. specialize (Hc w Hw).
  destruct (c w) as [[a|e] w']; simpl in *; [by apply Hk|done].
Qed.

Lemma preserves_ret {A} (a : A) : preserves (ret a).
Proof. by intros w Hw. Qed.

(** Steps that touch neither dictionary nor the name of an instance. *)
Lemma consistent_same (w w' : World) :
  _Cache w' = _Cache w -> _Monitors w' = _Monitors w ->
  (forall h, name_of h w' = name_of h w) ->
  consistent w -> consistent w'.
Proof.
  intros HC HM HN [H1 H2]. split.
  - intros pvname h. rewrite HC, HN. apply H1.
  - intros pvname h. rewrite HC, HM. apply H2.
Qed.

Lemma name_of_alter (f : PVobj -> PVobj) (h0 h : handle) (w : World) :
  (forall o, pv_pvname (f o) = pv_pvname o) ->
  name_of h (with_objects (alter f h0 (objects w)) w) = name_of h w.
Proof.
  intros Hf. unfold name_of. simpl. rewrite list_lookup_alter.
  case_decide; [subst h0|done].
  destruct (objects w !! h) as [o|]; [|done]. cbn. by rewrite Hf.
Qed.

Lemma preserves_modify_same (f : World -> World) :
  (forall w, _Cache (f w) = _Cache w /\ _Monitors (f w) = _Monitors w /\
             forall h, name_of h (f w) = name_of h w) ->
  preserves (modify f).
Proof.
  intros Hf w Hw. destruct (Hf w) as (HC & HM & HN). by eapply consistent_same.
Qed.

Lemma preserves_get thispv as_string : preserves (get env thispv as_string).
Proof. intros w Hw. by eapply consistent_same. Qed.

Lemma preserves_get_ctrlvars thispv : preserves (get_ctrlvars env thispv).
Proof. intros w Hw. by eapply consistent_same. Qed.

Lemma preserves_put thispv value wait timeout :
  preserves (put env thispv value wait timeout).
Proof. intros w Hw. by eapply consistent_same. Qed.

Lemma preserves_info thispv : preserves (info env thispv).
Proof. by intros w Hw. Qed.

Lemma preserves_time_sleep d : preserves (time_sleep env d).
Proof. by apply preserves_modify_same. Qed.

Lemma preserves_sys_stdout_write s : preserves (sys_stdout_write s).
Proof. by apply preserves_modify_same. Qed.

Lemma preserves_add_callback thispv cb : preserves (add_callback thispv cb).
Proof.
  apply preserves_modify_same. intros w. repeat split.
  intros h. by apply (name_of_alter (attach cb)).
Qed.

Lemma preserves_clear_callbacks thispv : preserves (clear_callbacks thispv).
Proof.
  apply preserves_modify_same. intros w. repeat split.
  intros h. by apply (name_of_alter detach_all).
Qed.

Lemma preserves_callback writer pvname value char_value :
  preserves (callback env writer pvname value char_value).
Proof.
  intros w Hw. rewrite callback_unfold. unfold after at 1. cbv [snd].
  destruct writer; by eapply consistent_same.
Qed.

Lemma preserves_invoke cb pvname value char_value :
  preserves (invoke env cb pvname value char_value).
Proof.
  destruct cb as [fn|writer]; [|apply preserves_callback].
  intros w Hw. by eapply consistent_same.
Qed.

Lemma preserves_run_callbacks cbs pvname value char_value :
  preserves (run_callbacks env cbs pvname value char_value).
Proof.
  induction cbs as [|cb cbs IH]; [apply preserves_ret|].
  apply preserves_bind; [apply preserves_invoke|done].
Qed.

Lemma preserves_notify h value char_value :
  preserves (notify env h value char_value).
Proof.
  intros w Hw. unfold notify, bind, gets.
  destruct (objects w !! h); [by apply preserves_run_callbacks|done].
Qed.

Lemma name_of_launched_old (pvname : string) (w : World) (h : handle) (n : string) :
  name_of h w = Some n -> name_of h (launched pvname w) = Some n.
Proof.
  unfold name_of. simpl. intros H.
  destruct (objects w !! h) as [o|] eqn:Ho; [|done].
  by rewrite (lookup_app_l_Some _ _ _ _ Ho).
Qed.

Lemma name_of_launched_new (pvname : string) (w : World) :
  name_of (next_handle w) (launched pvname w) = Some pvname.
Proof.
  unfold name_of, next_handle. simpl. by rewrite list_lookup_middle.
Qed.

(** Resolution keeps the dictionaries consistent, never raises, and a
    handle it returns is the cached one. *)
Lemma createPV_consistent (pvname : string) (timeout : Z) (w : World) :
  consistent w ->
  consistent (after (__createPV env pvname timeout w)) /\
  _Monitors (after (__createPV env pvname timeout w)) = _Monitors w /\
  exists res, result (__createPV env pvname timeout w) = Ret res /\
    forall h, res = Some h ->
      _Cache (after (__createPV env pvname timeout w)) !! pvname = Some h.
Proof.
  intros Hw. destruct (_Cache w !! pvname) as [h0|] eqn:Hc.
  { rewrite (createPV_hit _ _ _ _ _ Hc). simpl. split; [done|]. split; [done|].
    exists (Some h0). split; [done|]. by intros h [= <-]. }
  rewrite createPV_miss by done. cbv zeta.
  destruct (poll_loop_frame env (next_handle w) (clock w) timeout (launched pvname w))
    as (HC & HM & HO & _).
  set (w1 := poll_loop env (next_handle w) (clock w) timeout (launched pvname w)) in *.
  assert (Hnames : forall h, name_of h w1 = name_of h (launched pvname w)).
  { intros h. unfold name_of. by rewrite HO. }
  destruct Hw as [H1 H2].
  destruct (connected_at env _ _); simpl.
  - repeat split; [| |done|].
    + intros n h. unfold name_of. simpl. fold (name_of h w1). rewrite Hnames, HC.
      destruct (decide (pvname = n)) as [<-|Hne].
      * rewrite lookup_insert_eq. intros [= <-]. apply name_of_launched_new.
      * rewrite lookup_insert_ne by done. intros Hn.
        by apply name_of_launched_old, H1.
    + intros n h. simpl. rewrite HM, HC. intros Hn. specialize (H2 _ _ Hn).
      destruct (decide (pvname = n)) as [<-|Hne]; [congruence|].
      by rewrite lookup_insert_ne.
    + exists (Some (next_handle w)). split; [done|].
      intros h [= <-]. by rewrite lookup_insert_eq.
  - repeat split; [| |done|].
    + intros n h. simpl. unfold name_of. simpl. fold (name_of h w1).
      rewrite Hnames, HC. intros Hn. by apply name_of_launched_old, H1.
    + intros n h. simpl. rewrite HM, HC. apply H2.
    + exists None. split; [done|]. by intros h [=].
Qed.

Lemma preserves_createPV pvname timeout : preserves (__createPV env pvname timeout).
Proof. intros w Hw. by apply createPV_consistent. Qed.

Lemma preserves_caget pvname as_string : preserves (caget env pvname as_string).
Proof.
  apply preserves_bind; [apply preserves_createPV|].
  intros [thispv|]; [|apply preserves_ret].
  apply preserves_bind; [apply preserves_get|]. intros val.
  apply preserves_bind; [apply preserves_time_sleep|]. intros _.
  destruct as_string; [|apply preserves_ret].
  apply preserves_bind; [apply preserves_get_ctrlvars|]. intros _.
  apply preserves_bind; [apply preserves_time_sleep|]. intros _.
  apply preserves_get.
Qed.

Lemma preserves_caput pvname value wait timeout :
  preserves (caput env pvname value wait timeout).
Proof.
  apply preserves_bind; [apply preserves_createPV|].
  intros [thispv|]; [apply preserves_put|apply preserves_ret].
Qed.

Lemma preserves_cainfo pvname print_out : preserves (cainfo env pvname print_out).
Proof.
  apply preserves_bind; [apply preserves_createPV|].
  intros [thispv|]; [|apply preserves_ret].
  apply preserves_bind; [apply preserves_get|]. intros _.
  apply preserves_bind; [apply preserves_get_ctrlvars|]. intros _.
  destruct print_out.
  - apply preserves_bind; [apply preserves_info|]. intros text.
    apply preserves_bind; [apply preserves_sys_stdout_write|]. intros _.
    apply preserves_ret.
  - apply preserves_bind; [apply preserves_info|]. intros text.
    apply preserves_ret.
Qed.

Lemma preserves_camonitor_clear pvname : preserves (camonitor_clear pvname).
Proof.
  intros w Hw. unfold camonitor_clear, bind, gets.
  destruct (_Monitors w !! pvname) as [[thispv|]|]; [|done..].
  pose proof (preserves_clear_callbacks thispv w Hw) as H. exact H.
Qed.

Lemma bind_modify {B} (f : World -> World) (k : unit -> M B) (w : World) :
  bind (modify f) k w = k tt (f w).
Proof. reflexivity. Qed.

Lemma preserves_camonitor pvname writer cb :
  preserves (camonitor env pvname writer cb).
Proof.
  intros w Hw. unfold camonitor. unfold bind at 1.
  destruct (createPV_consistent pvname default_timeout w Hw)
    as (Hw1 & _ & res & Hres & Hcached).
  destruct (__createPV env pvname default_timeout w) as [r w1].
  simpl in Hw1, Hres, Hcached. subst r. rewrite bind_modify.
  assert (Hw2 : consistent (with_Monitors (<[pvname:=res]> (_Monitors w1)) w1)).
  { destruct Hw1 as [H1 H2]. split; [exact H1|].
    intros n h. simpl.
    destruct (decide (pvname = n)) as [<-|Hne].
    - rewrite lookup_insert_eq. intros [= ->]. by apply Hcached.
    - rewrite lookup_insert_ne by done. apply H2. }
  revert Hw2. generalize (with_Monitors (<[pvname:=res]> (_Monitors w1)) w1).
  change (preserves
    match res with
    | Some thispv =>
        get env thispv false ;;;
        add_callback thispv (chosen_callback writer cb) ;;; ret PyNone
    | None => ret PyNone
    end).
  destruct res as [thispv|]; [|apply preserves_ret].
  apply preserves_bind; [apply preserves_get|]. intros _.
  apply preserves_bind; [apply preserves_add_callback|]. intros _.
  apply preserves_ret.
Qed.

(** In every world of a session the dictionaries are consistent. *)
Lemma reachable_consistent (w : World) : reachable env w -> consistent w.
Proof.
  induction 1 as [t| | | | | | |].
  - split; intros pvname h; simpl; by rewrite lookup_empty.
  - by apply preserves_caget.
  - by apply preserves_caput.
  - by apply preserves_cainfo.
  - by apply preserves_camonitor.
  - by apply preserves_camonitor_clear.
  - by apply (preserves_time_sleep d).
  - by apply preserves_notify.
Qed.

End Consistency.

(** ** The monitor registry *)

(** A resolution that fails still writes the registry: the name is mapped
    to [None]. *)
Lemma camonitor_unreachable (env : Collaborator) (pvname : string)
    (writer : option Writer) (cb : option Callback) (w : World) :
  _Cache w !! pvname = None ->
  (forall t, connected_at env (next_handle w) t = false) ->
  _Monitors (after (camonitor env pvname writer cb w))
    = <[pvname := None]> (_Monitors w).
Proof.
  intros Hmiss Hdead.
  destruct (createPV_unreachable env pvname default_timeout w Hmiss Hdead)
    as (Hres & _ & HM & _).
  destruct (__createPV env pvname default_timeout w) as [res w1] eqn:E.
  simpl in Hres, HM. subst res. resolved_as E. by rewrite HM.
Qed.

(** A resolution that succeeds: the handle is registered, one [get()] is
    issued, and the callback is added after those the instance has. *)
Lemma camonitor_attaches (env : Collaborator) (pvname : string)
    (writer : option Writer) (cb : option Callback) (w w1 : World) (h : handle) :
  consistent w ->
  __createPV env pvname default_timeout w = (Ret (Some h), w1) ->
  (exists v, get_reply env h false (clock w1) = Ret v) ->
  result (camonitor env pvname writer cb w) = Ret PyNone /\
  _Monitors (after (camonitor env pvname writer cb w))
    = <[pvname := Some h]> (_Monitors w) /\
  callbacks_of h (after (camonitor env pvname writer cb w))
    = callbacks_of h w1 ++ [chosen_callback writer cb] /\
  calls (after (camonitor env pvname writer cb w))
    = calls w1 ++ [EvGet h false; EvAddCallback h (chosen_callback writer cb)].
Proof.
  intros Hw Hres [v Hv].
  destruct (createPV_consistent env pvname default_timeout w Hw) as ([H1 _] & _).
  destruct (createPV_success env _ _ _ _ _ Hres) as (Hc & HM & _).
  rewrite Hres in H1. simpl in H1. specialize (H1 _ _ Hc).
  unfold name_of in H1. destruct (objects w1 !! h) as [o|] eqn:Ho; [|done].
  resolved_as Hres. unfold get. simpl. rewrite Hv. simpl.
  fold (chosen_callback writer cb).
  split; [done|]. split; [by rewrite HM|]. split; [|by rewrite <- app_assoc].
  unfold callbacks_of. simpl. rewrite list_lookup_alter, Ho.
  case_decide; done.
Qed.

Lemma camonitor_clear_absent (pvname : string) (w : World) :
  _Monitors w !! pvname = None ->
  camonitor_clear pvname w = (Ret PyNone, w).
Proof. intros H. unfold camonitor_clear, bind, gets. by rewrite H. Qed.

Lemma camonitor_clear_registered (pvname : string) (w : World) (h : handle) :
  _Monitors w !! pvname = Some (Some h) ->
  result (camonitor_clear pvname w) = Ret PyNone /\
  callbacks_of h (after (camonitor_clear pvname w)) = [] /\
  _Monitors (after (camonitor_clear pvname w)) = _Monitors w.
Proof.
  intros H. unfold camonitor_clear, bind, gets. rewrite H. simpl.
  split; [done|]. split; [|done].
  unfold callbacks_of. simpl. rewrite list_lookup_alter.
  case_decide; [|done]. by destruct (objects w !! h).
Qed.

(** C1, the code against the claim. [camonitor] on a name that cannot be
    reached leaves the name in [_Monitors], mapped to [None]: the
    assignment [_Monitors[pvname] = thispv] comes before the test of
    [thispv], so the entry is no handle and carries no callback. *)
Theorem camonitor_registers_None :
  reachable dead_env (after (camonitor dead_env "X.VAL" None None fresh_world)) /\
  result (camonitor dead_env "X.VAL" None None fresh_world) = Ret PyNone /\
  _Monitors (after (camonitor dead_env "X.VAL" None None fresh_world)) !! "X.VAL"
    = Some None.
Proof.
  split; [apply reach_camonitor, (reach_import dead_env 0)|].
  split.
  - destruct (createPV_unreachable dead_env "X.VAL" default_timeout fresh_world
                eq_refl (fun _ => eq_refl)) as (Hres & _).
    destruct (__createPV dead_env "X.VAL" default_timeout fresh_world)
      as [res w1] eqn:E.
    simpl in Hres. subst res. by resolved_as E.
  - rewrite (camonitor_unreachable dead_env) by reflexivity.
    apply lookup_insert_eq.
Qed.

(** C5, the code against the claim. After such a [camonitor], the name is
    in [_Monitors], and [camonitor_clear] on it raises [AttributeError]:
    [None] has no [clear_callbacks]. *)
Theorem camonitor_clear_raises :
  result (camonitor_clear "X.VAL"
            (after (camonitor dead_env "X.VAL" None None fresh_world)))
    = Raise (AttributeError "clear_callbacks").
Proof.
  pose proof (camonitor_unreachable dead_env "X.VAL" None None fresh_world
                eq_refl (fun _ => eq_refl)) as HM.
  unfold camonitor_clear, bind, gets. simpl. rewrite HM.
  by rewrite lookup_insert_eq.
Qed.

(** C9, as stated, fails.  Modelled from the spec, [add_callback]
    subscribes one more callback: after a second [camonitor] on the name
    the instance carries the first callback and the second, not the second
    alone. *)
Lemma remonitor_keeps_first_callback :
  let w1 := after (camonitor live_env "X.VAL" None (Some (UserCallback 1)) fresh_world) in
  let w2 := after (camonitor live_env "X.VAL" None (Some (UserCallback 2)) w1) in
  _Monitors w1 !! "X.VAL" = Some (Some 0%nat) /\
  callbacks_of 0 w2 = [UserCallback 1; UserCallback 2] /\
  callbacks_of 0 w2 <> [UserCallback 2].
Proof. vm_compute. split; [done|]. split; [done|discriminate]. Qed.

(** C9, amended. [camonitor] on a name that is already monitored assigns
    the registry entry again, to the same cached handle; no instance is
    made and nothing is detached: one [get()] is issued and the callback is
    added after the callbacks the instance already carries. *)
Theorem remonitor_adds_callback (env : Collaborator) (w : World)
    (pvname : string) (h : handle) (writer : option Writer)
    (cb : option Callback) :
  reachable env w ->
  _Monitors w !! pvname = Some (Some h) ->
  (exists v, get_reply env h false (clock w) = Ret v) ->
  result (camonitor env pvname writer cb w) = Ret PyNone /\
  _Monitors (after (camonitor env pvname writer cb w)) = _Monitors w /\
  callbacks_of h (after (camonitor env pvname writer cb w))
    = callbacks_of h w ++ [chosen_callback writer cb] /\
  calls (after (camonitor env pvname writer cb w))
    = calls w ++ [EvGet h false; EvAddCallback h (chosen_callback writer cb)].
Proof.
  intros Hreach Hmon Hget.
  pose proof (reachable_consistent env w Hreach) as Hw.
  destruct Hw as [H1 H2]. pose proof (H2 _ _ Hmon) as Hc.
  pose proof (createPV_hit env pvname default_timeout w h Hc) as Hres.
  destruct (camonitor_attaches env pvname writer cb w w h (conj H1 H2) Hres Hget)
    as (Hr & HM & Hcbs & Hcalls).
  split; [done|]. split; [|done].
  rewrite HM. by apply insert_id.
Qed.

Lemma remonitor_adds_callback_witness :
  let w1 := after (camonitor live_env "X.VAL" None (Some (UserCallback 1)) fresh_world) in
  reachable live_env w1 /\
  _Monitors w1 !! "X.VAL" = Some (Some 0%nat) /\
  (exists v, get_reply live_env 0%nat false (clock w1) = Ret v) /\
  result (camonitor live_env "X.VAL" None (Some (UserCallback 2)) w1) = Ret PyNone /\
  _Monitors (after (camonitor live_env "X.VAL" None (Some (UserCallback 2)) w1))
    = _Monitors w1 /\
  callbacks_of 0%nat (after (camonitor live_env "X.VAL" None (Some (UserCallback 2)) w1))
    = callbacks_of 0%nat w1 ++ [chosen_callback None (Some (UserCallback 2))] /\
  calls (after (camonitor live_env "X.VAL" None (Some (UserCallback 2)) w1))
    = calls w1 ++ [EvGet 0%nat false;
                   EvAddCallback 0%nat (chosen_callback None (Some (UserCallback 2)))].
Proof.
  set (w1 := after (camonitor live_env "X.VAL" None (Some (UserCallback 1)) fresh_world)).
  assert (Hreach : reachable live_env w1)
    by apply reach_camonitor, (reach_import live_env 0).
  assert (Hmon : _Monitors w1 !! "X.VAL" = Some (Some 0%nat))
    by (vm_compute; reflexivity).
  assert (Hget : exists v, get_reply live_env 0%nat false (clock w1) = Ret v)
    by (eexists; reflexivity).
  split; [exact Hreach|]. split; [exact Hmon|]. split; [exact Hget|].
  exact (remonitor_adds_callback live_env w1 "X.VAL" 0%nat None
           (Some (UserCallback 2)) Hreach Hmon Hget).
Defined.

(** ** A monitor from start to end *)

(** With the default callback, a change of the monitored instance writes
    one line to [sys.stdout]; once the monitor is cleared, a change writes
    nothing. *)
Example monitor_lifecycle :
  let w1 := after (camonitor live_env "X.VAL" None None fresh_world) in
  let w2 := after (notify live_env 0 (PyInt 3) (PyStr "3.000") w1) in
  let w3 := after (camonitor_clear "X.VAL" w2) in
  let w4 := after (notify live_env 0 (PyInt 4) (PyStr "4.000") w3) in
  stdout w1 = [] /\
  stdout w2 = ["X.VAL 00:00:00.000 3.000" +:+ LF] /\
  stdout w4 = stdout w2.
Proof. vm_compute. done. Qed.

(** After a second [camonitor] with the default callback, one change writes
    two lines. *)
Example remonitor_doubles_output :
  let w1 := after (camonitor live_env "X.VAL" None None fresh_world) in
  let w2 := after (camonitor live_env "X.VAL" None None w1) in
  stdout (after (notify live_env 0 (PyInt 3) PyNone w2))
  = ["X.VAL 00:00:00.000 3" +:+ LF; "X.VAL 00:00:00.000 3" +:+ LF].
Proof. vm_compute. done. Qed.

(** ** More on resolution *)

Section PollCount.

Context (env : Collaborator) (thispv : handle) (start_time timeout : Z).

(** The loop sleeps [n] times and does nothing else; it does not sleep at
    all when the instance is connected on entry, and every sleep but the
    first was begun with the time not yet up. *)
Lemma poll_loop_sleeps (w : World) :
  exists n : nat,
    calls (poll_loop env thispv start_time timeout w)
      = calls w ++ replicate n (EvSleep poll_interval) /\
    (connected_at env thispv (clock w) = true -> n = 0%nat) /\
    ((n <= 1)%nat \/
     (Z.of_nat n - 1) * poll_interval <= timeout - (clock w - start_time)).
Proof.
  pattern w, (poll_loop env thispv start_time timeout w).
  apply poll_loop_passes; clear w.
  - intros w Hc. exists 0%nat. simpl. rewrite app_nil_r. auto.
  - intros w Hc _. exists 1%nat. split; [done|]. split; [congruence|auto].
  - intros w w' Hc Hin (n & Hcalls & _ & Hn). exists (S n).
    split; [|split; [congruence|]].
    + rewrite Hcalls. simpl. by rewrite <- app_assoc.
    + rewrite clock_sleep_world in Hin, Hn. unfold poll_interval in *.
      destruct Hn as [Hn|Hn]; [|right; lia].
      destruct n as [|[|n]]; [left; lia|right; lia|lia].
Qed.

(** With a connection that lasts from the time [since] on, the loop is
    left less than one sleep after [since]. *)
Lemma poll_loop_latency (since lag : Z) (w : World) :
  (forall t, since <= t -> connected_at env thispv t = true) ->
  (forall t, sleep_overrun env t <= lag) ->
  0 <= lag ->
  clock (poll_loop env thispv start_time timeout w)
    <= Z.max (clock w) (since + poll_interval + lag).
Proof.
  intros Hconn Hlag Hlag0.
  pattern w, (poll_loop env thispv start_time timeout w).
  apply poll_loop_passes; clear w.
  - intros w _. lia.
  - intros w Hc _. rewrite clock_sleep_world.
    assert (clock w < since).
    { destruct (Z.lt_ge_cases (clock w) since) as [|Hge]; [done|].
      rewrite Hconn in Hc by done. done. }
    specialize (Hlag (clock w)). lia.
  - intros w w' Hc _ IH. rewrite clock_sleep_world in IH.
    assert (clock w < since).
    { destruct (Z.lt_ge_cases (clock w) since) as [|Hge]; [done|].
      rewrite Hconn in Hc by done. done. }
    specialize (Hlag (clock w)). lia.
Qed.

End PollCount.

(** X1. The resolution of a name that is not cached is decided by the one
    test made when the wait has ended: the handle is returned exactly when
    the instance reports connected at that time, also when the time was
    already up; and [None] is never returned before the time is up. *)
Theorem resolution_decided_at_end (env : Collaborator) (w : World)
    (pvname : string) (timeout : Z) :
  _Cache w !! pvname = None ->
  result (__createPV env pvname timeout w)
    = Ret (if connected_at env (next_handle w)
                (clock (after (__createPV env pvname timeout w)))
           then Some (next_handle w) else None) /\
  (result (__createPV env pvname timeout w) = Ret None ->
   timeout < clock (after (__createPV env pvname timeout w)) - clock w).
Proof.
  intros Hmiss. rewrite createPV_miss by done. cbv zeta.
  destruct (poll_loop_exit env (next_handle w) (clock w) timeout (launched pvname w))
    as [Hyes|Hup]; cbv zeta in *.
  - rewrite Hyes. simpl. rewrite Hyes. split; [done|]. intros [=].
  - destruct (connected_at env _ _) eqn:Hc; simpl; rewrite Hc; split; done.
Qed.

Lemma resolution_decided_at_end_witness :
  _Cache fresh_world !! "X.VAL" = None /\
  result (__createPV slow_env "X.VAL" 1000 fresh_world)
    = Ret (if connected_at slow_env (next_handle fresh_world)
                (clock (after (__createPV slow_env "X.VAL" 1000 fresh_world)))
           then Some (next_handle fresh_world) else None) /\
  (result (__createPV slow_env "X.VAL" 1000 fresh_world) = Ret None ->
   1000 < clock (after (__createPV slow_env "X.VAL" 1000 fresh_world))
          - clock fresh_world).
Proof.
  split; [reflexivity|].
  exact (resolution_decided_at_end slow_env fresh_world "X.VAL" 1000 eq_refl).
Defined.

(** X2. What the resolution of a name that is not cached does to the layers
    below: it makes one instance, calls [connect()] on it once, and then
    only sleeps, one millisecond at a time and at most
    [timeout / 1 ms + 1] times.  [_Monitors] is not touched. *)
Theorem resolution_footprint (env : Collaborator) (w : World)
    (pvname : string) (timeout : Z) :
  _Cache w !! pvname = None ->
  0 <= timeout ->
  objects (after (__createPV env pvname timeout w))
    = objects w ++ [mkPV pvname []] /\
  _Monitors (after (__createPV env pvname timeout w)) = _Monitors w /\
  exists n : nat,
    calls (after (__createPV env pvname timeout w))
      = calls w ++ [EvPV (next_handle w) pvname; EvConnect (next_handle w)]
          ++ replicate n (EvSleep poll_interval) /\
    Z.of_nat n <= timeout / poll_interval + 1.
Proof.
  intros Hmiss Ht. rewrite createPV_miss by done. cbv zeta.
  destruct (poll_loop_frame env (next_handle w) (clock w) timeout (launched pvname w))
    as (_ & HM & HO & _).
  destruct (poll_loop_sleeps env (next_handle w) (clock w) timeout (launched pvname w))
    as (n & Hcalls & _ & Hn).
  assert (Hbound : Z.of_nat n <= timeout / poll_interval + 1).
  { assert (0 <= timeout / poll_interval)
      by (apply Z.div_pos; unfold poll_interval; lia).
    destruct Hn as [Hn|Hn]; [lia|]. simpl in Hn.
    assert (Z.of_nat n - 1 <= timeout / poll_interval); [|lia].
    apply Z.div_le_lower_bound; unfold poll_interval in *; lia. }
  assert (Hlog : calls (launched pvname w)
                 = calls w ++ [EvPV (next_handle w) pvname; EvConnect (next_handle w)]).
  { simpl. by rewrite <- app_assoc. }
  destruct (connected_at env _ _); simpl; rewrite HM, HO, Hcalls, Hlog;
    (split; [done|]); (split; [done|]); exists n; by rewrite <- app_assoc.
Qed.

Lemma resolution_footprint_witness :
  _Cache fresh_world !! "X.VAL" = None /\
  0 <= default_timeout /\
  objects (after (__createPV dead_env "X.VAL" default_timeout fresh_world))
    = objects fresh_world ++ [mkPV "X.VAL" []] /\
  _Monitors (after (__createPV dead_env "X.VAL" default_timeout fresh_world))
    = _Monitors fresh_world /\
  exists n : nat,
    calls (after (__createPV dead_env "X.VAL" default_timeout fresh_world))
      = calls fresh_world
          ++ [EvPV (next_handle fresh_world) "X.VAL";
              EvConnect (next_handle fresh_world)]
          ++ replicate n (EvSleep poll_interval) /\
    Z.of_nat n <= default_timeout / poll_interval + 1.
Proof.
  assert (Htimeout : 0 <= default_timeout) by (unfold default_timeout; lia).
  split; [reflexivity|]. split; [exact Htimeout|].
  exact (resolution_footprint dead_env fresh_world "X.VAL" default_timeout
           eq_refl Htimeout).
Defined.

(** X3. When the instance made for a name is connected from the time
    [since] on, and [since] is not later than the deadline, the resolution
    returns the handle, and it returns less than one sleep after [since]
    (or at once, when [since] is already past). *)
Theorem resolution_latency (env : Collaborator) (w : World) (pvname : string)
    (timeout since lag : Z) :
  _Cache w !! pvname = None ->
  (forall t, since <= t -> connected_at env (next_handle w) t = true) ->
  since <= clock w + timeout ->
  0 <= lag ->
  (forall t, sleep_overrun env t <= lag) ->
  result (__createPV env pvname timeout w) = Ret (Some (next_handle w)) /\
  clock (after (__createPV env pvname timeout w))
    <= Z.max (clock w) (since + poll_interval + lag).
Proof.
  intros Hmiss Hconn Hsince Hlag0 Hlag.
  rewrite createPV_miss by done. cbv zeta.
  pose proof (poll_loop_latency env (next_handle w) (clock w) timeout since lag
                (launched pvname w) Hconn Hlag Hlag0) as Hlat.
  destruct (poll_loop_exit env (next_handle w) (clock w) timeout (launched pvname w))
    as [Hyes|Hup]; cbv zeta in *.
  - rewrite Hyes. simpl. done.
  - rewrite Hconn by lia. simpl. done.
Qed.

Lemma resolution_latency_witness :
  _Cache fresh_world !! "X.VAL" = None /\
  (forall t, 3000 <= t -> connected_at slow_env (next_handle fresh_world) t = true) /\
  3000 <= clock fresh_world + default_timeout /\
  0 <= 0 /\
  (forall t, sleep_overrun slow_env t <= 0) /\
  result (__createPV slow_env "X.VAL" default_timeout fresh_world)
    = Ret (Some (next_handle fresh_world)) /\
  clock (after (__createPV slow_env "X.VAL" default_timeout fresh_world))
    <= Z.max (clock fresh_world) (3000 + poll_interval + 0).
Proof.
  assert (Hconn : forall t, 3000 <= t ->
            connected_at slow_env (next_handle fresh_world) t = true).
  { intros t Ht. simpl. by apply Z.leb_le. }
  assert (Hsince : 3000 <= clock fresh_world + default_timeout)
    by (simpl; unfold default_timeout; lia).
  assert (Hlag : forall t, sleep_overrun slow_env t <= 0) by (intros t; simpl; lia).
  split; [reflexivity|]. split; [exact Hconn|]. split; [exact Hsince|].
  split; [lia|]. split; [exact Hlag|].
  exact (resolution_latency slow_env fresh_world "X.VAL" default_timeout 3000 0
           eq_refl Hconn Hsince (Z.le_refl 0) Hlag).
Defined.

(** ** The accessors, call by call *)

(** X4. For a name that resolves, [caput] makes one call, [put] with the
    value, [wait] and [timeout] it was given, and hands back what that call
    answered, its value or its exception.  It does not sleep and writes
    nothing. *)
Theorem caput_passes_through (env : Collaborator) (w w1 : World)
    (pvname : string) (h : handle) (value : pyvalue) (wait : bool) (timeout : Z) :
  __createPV env pvname default_timeout w = (Ret (Some h), w1) ->
  result (caput env pvname value wait timeout w)
    = put_reply env h value wait timeout (clock w1) /\
  calls (after (caput env pvname value wait timeout w))
    = calls w1 ++ [EvPut h value wait timeout] /\
  clock (after (caput env pvname value wait timeout w)) = clock w1 /\
  stdout (after (caput env pvname value wait timeout w)) = stdout w.
Proof.
  intros Hres.
  destruct (createPV_success env _ _ _ _ _ Hres) as (_ & _ & Hout & _).
  by resolved_as Hres.
Qed.

Lemma caput_passes_through_witness :
  let w1 := after (__createPV live_env "X.VAL" default_timeout fresh_world) in
  __createPV live_env "X.VAL" default_timeout fresh_world = (Ret (Some 0%nat), w1) /\
  result (caput live_env "X.VAL" (PyInt 3) true 60000000 fresh_world)
    = put_reply live_env 0%nat (PyInt 3) true 60000000 (clock w1) /\
  calls (after (caput live_env "X.VAL" (PyInt 3) true 60000000 fresh_world))
    = calls w1 ++ [EvPut 0%nat (PyInt 3) true 60000000] /\
  clock (after (caput live_env "X.VAL" (PyInt 3) true 60000000 fresh_world))
    = clock w1 /\
  stdout (after (caput live_env "X.VAL" (PyInt 3) true 60000000 fresh_world))
    = stdout fresh_world.
Proof.
  assert (H : __createPV live_env "X.VAL" default_timeout fresh_world
              = (Ret (Some 0%nat),
                 after (__createPV live_env "X.VAL" default_timeout fresh_world))).
  { vm_compute. reflexivity. }
  split; [exact H|].
  exact (caput_passes_through live_env fresh_world _ "X.VAL" 0%nat (PyInt 3) true
           60000000 H).
Defined.

(** X5. On a name that cannot be reached, [caget], [caput] and [cainfo] do
    nothing beyond the failed resolution: they leave the very world that
    [__createPV] left, so no [get], [put] or [get_ctrlvars] is issued.
    [camonitor] adds one thing, the registry entry that maps the name to
    [None]. *)
Theorem unreachable_does_nothing_else (env : Collaborator) (w : World)
    (pvname : string) :
  _Cache w !! pvname = None ->
  (forall t, connected_at env (next_handle w) t = false) ->
  (forall as_string,
     after (caget env pvname as_string w)
       = after (__createPV env pvname default_timeout w)) /\
  (forall value wait timeout,
     after (caput env pvname value wait timeout w)
       = after (__createPV env pvname default_timeout w)) /\
  (forall print_out,
     after (cainfo env pvname print_out w)
       = after (__createPV env pvname default_timeout w)) /\
  (forall writer callback,
     after (camonitor env pvname writer callback w)
       = with_Monitors (<[pvname := None]> (_Monitors w))
           (after (__createPV env pvname default_timeout w))).
Proof.
  intros Hmiss Hdead.
  destruct (createPV_unreachable env pvname default_timeout w Hmiss Hdead)
    as (Hres & _ & HM & _).
  destruct (__createPV env pvname default_timeout w) as [res w1] eqn:E.
  simpl in Hres, HM. subst res.
  repeat split; intros; resolved_as E; by rewrite ?HM.
Qed.

Lemma unreachable_does_nothing_else_witness :
  _Cache fresh_world !! "X.VAL" = None /\
  (forall t, connected_at dead_env (next_handle fresh_world) t = false) /\
  after (caput dead_env "X.VAL" (PyInt 3) false 60000000 fresh_world)
    = after (__createPV dead_env "X.VAL" default_timeout fresh_world).
Proof.
  split; [reflexivity|]. split; [reflexivity|].
  destruct (unreachable_does_nothing_else dead_env fresh_world "X.VAL" eq_refl
              (fun _ => eq_refl)) as (_ & Hput & _).
  exact (Hput (PyInt 3) false 60000000).
Defined.

(** X6. When the first [get()] on a resolved name raises, the exception
    comes out of [caget], [cainfo] and [camonitor] and that [get()] is the
    last call made: [cainfo] has printed nothing, and [camonitor] has
    already put the handle in [_Monitors] but has attached no callback. *)
Theorem get_error_propagates (env : Collaborator) (w w1 : World)
    (pvname : string) (h : handle) (e : Exn) :
  __createPV env pvname default_timeout w = (Ret (Some h), w1) ->
  get_reply env h false (clock w1) = Raise e ->
  (forall as_string,
     result (caget env pvname as_string w) = Raise e /\
     calls (after (caget env pvname as_string w)) = calls w1 ++ [EvGet h false]) /\
  (forall print_out,
     result (cainfo env pvname print_out w) = Raise e /\
     calls (after (cainfo env pvname print_out w)) = calls w1 ++ [EvGet h false] /\
     stdout (after (cainfo env pvname print_out w)) = stdout w) /\
  (forall writer callback,
     result (camonitor env pvname writer callback w) = Raise e /\
     calls (after (camonitor env pvname writer callback w))
       = calls w1 ++ [EvGet h false] /\
     _Monitors (after (camonitor env pvname writer callback w))
       = <[pvname := Some h]> (_Monitors w) /\
     objects (after (camonitor env pvname writer callback w)) = objects w1).
Proof.
  intros Hres He.
  destruct (createPV_success env _ _ _ _ _ Hres) as (_ & HM & Hout & _).
  repeat split; resolved_as Hres; unfold get; simpl; rewrite He; simpl;
    by rewrite ?HM, ?Hout.
Qed.

Lemma get_error_propagates_witness :
  let w1 := after (__createPV failing_get_env "X.VAL" default_timeout fresh_world) in
  __createPV failing_get_env "X.VAL" default_timeout fresh_world
    = (Ret (Some 0%nat), w1) /\
  get_reply failing_get_env 0%nat false (clock w1) = Raise (PVError 1) /\
  result (camonitor failing_get_env "X.VAL" None None fresh_world)
    = Raise (PVError 1) /\
  calls (after (camonitor failing_get_env "X.VAL" None None fresh_world))
    = calls w1 ++ [EvGet 0%nat false] /\
  _Monitors (after (camonitor failing_get_env "X.VAL" None None fresh_world))
    = <["X.VAL" := Some 0%nat]> (_Monitors fresh_world) /\
  objects (after (camonitor failing_get_env "X.VAL" None None fresh_world))
    = objects w1.
Proof.
  assert (H : __createPV failing_get_env "X.VAL" default_timeout fresh_world
              = (Ret (Some 0%nat),
                 after (__createPV failing_get_env "X.VAL" default_timeout
                          fresh_world))).
  { vm_compute. reflexivity. }
  split; [exact H|]. split; [reflexivity|].
  destruct (get_error_propagates failing_get_env fresh_world _ "X.VAL" 0%nat
              (PVError 1) H eq_refl) as (_ & _ & Hmon).
  exact (Hmon None None).
Defined.

(** X7. When [get_ctrlvars()] raises on a resolved name whose [get()]
    returns: [caget] without [as_string] never calls it and returns the
    value; [caget] with [as_string=True] raises the exception and never
    issues the formatted [get]; [cainfo] raises it and prints nothing. *)
Theorem get_ctrlvars_error_propagates (env : Collaborator) (w w1 : World)
    (pvname : string) (h : handle) (v : pyvalue) (e : Exn) :
  __createPV env pvname default_timeout w = (Ret (Some h), w1) ->
  get_reply env h false (clock w1) = Ret v ->
  (forall t, get_ctrlvars_reply env h t = Raise e) ->
  (result (caget env pvname false w) = Ret v /\
   calls (after (caget env pvname false w))
     = calls w1 ++ [EvGet h false; EvSleep 1000]) /\
  (result (caget env pvname true w) = Raise e /\
   calls (after (caget env pvname true w))
     = calls w1 ++ [EvGet h false; EvSleep 1000; EvGetCtrlvars h]) /\
  (forall print_out,
     result (cainfo env pvname print_out w) = Raise e /\
     calls (after (cainfo env pvname print_out w))
       = calls w1 ++ [EvGet h false; EvGetCtrlvars h] /\
     stdout (after (cainfo env pvname print_out w)) = stdout w).
Proof.
  intros Hres Hv He.
  destruct (createPV_success env _ _ _ _ _ Hres) as (_ & _ & Hout & _).
  repeat split; resolved_as Hres; unfold get, get_ctrlvars; simpl;
    rewrite Hv; simpl; rewrite ?He; simpl; by rewrite <- ?app_assoc, ?Hout.
Qed.

Lemma get_ctrlvars_error_propagates_witness :
  let w1 := after (__createPV failing_ctrlvars_env "X.VAL" default_timeout
                     fresh_world) in
  __createPV failing_ctrlvars_env "X.VAL" default_timeout fresh_world
    = (Ret (Some 0%nat), w1) /\
  get_reply failing_ctrlvars_env 0%nat false (clock w1) = Ret (PyInt 7) /\
  (forall t, get_ctrlvars_reply failing_ctrlvars_env 0%nat t = Raise (PVError 2)) /\
  (result (caget failing_ctrlvars_env "X.VAL" false fresh_world) = Ret (PyInt 7) /\
   calls (after (caget failing_ctrlvars_env "X.VAL" false fresh_world))
     = calls w1 ++ [EvGet 0%nat false; EvSleep 1000]) /\
  (result (caget failing_ctrlvars_env "X.VAL" true fresh_world)
     = Raise (PVError 2) /\
   calls (after (caget failing_ctrlvars_env "X.VAL" true fresh_world))
     = calls w1 ++ [EvGet 0%nat false; EvSleep 1000; EvGetCtrlvars 0%nat]).
Proof.
  assert (H : __createPV failing_ctrlvars_env "X.VAL" default_timeout fresh_world
              = (Ret (Some 0%nat),
                 after (__createPV failing_ctrlvars_env "X.VAL" default_timeout
                          fresh_world))).
  { vm_compute. reflexivity. }
  split; [exact H|]. split; [reflexivity|]. split; [reflexivity|].
  destruct (get_ctrlvars_error_propagates failing_ctrlvars_env fresh_world _
              "X.VAL" 0%nat (PyInt 7) (PVError 2) H eq_refl (fun _ => eq_refl))
    as (Hraw & Hstr & _).
  split; [exact Hraw|exact Hstr].
Defined.

(** ** What a call leaves alone *)

Section Frames.

Context (env : Collaborator).

Lemma inert_refl (w : World) : inert w w.
Proof. by repeat split. Qed.

Lemma inert_trans (w1 w2 w3 : World) : inert w1 w2 -> inert w2 w3 -> inert w1 w3.
Proof.
  intros (HC & HM & HO & HS) (HC' & HM' & HO' & HS').
  repeat split; [congruence..|by etrans].
Qed.

Lemma calm_trans (w1 w2 w3 : World) : calm w1 w2 -> calm w2 w3 -> calm w1 w3.
Proof.
  intros (HC & HM & HN & HS) (HC' & HM' & HN' & HS').
  repeat split; [congruence..| |by etrans].
  intros h. by rewrite HN', HN.
Qed.

Lemma inert_calm (w w' : World) : inert w w' -> calm w w'.
Proof.
  intros (HC & HM & HO & HS). repeat split; [done..| |done].
  intros h. unfold name_of. by rewrite HO.
Qed.

Lemma steps_in_ret (R : World -> World -> Prop) {A} (a : A) :
  (forall w, R w w) -> steps_in R (ret a).
Proof. intros Hrefl w. apply Hrefl. Qed.

Lemma steps_in_bind (R : World -> World -> Prop) {A B} (c : M A) (k : A -> M B) :
  (forall w1 w2 w3, R w1 w2 -> R w2 w3 -> R w1 w3) ->
  steps_in R c -> (forall a, steps_in R (k a)) -> steps_in R (bind c k).
Proof.
  intros Htrans Hc Hk w. unfold bind. specialize (Hc w).
  destruct (c w) as [[a|e] w1]; simpl in *; [|done].
  eapply Htrans; [exact Hc|apply Hk].
Qed.

(** The part of a computation that comes after its first step. *)
Lemma bind_after_steps (R : World -> World -> Prop) {A B} (c : M A)
    (k : A -> M B) (w : World) :
  (forall w, R w w) -> (forall a, steps_in R (k a)) ->
  R (after (c w)) (after (bind c k w)).
Proof.
  intros Hrefl Hk. unfold bind.
  destruct (c w) as [[a|e] w1]; simpl; [apply Hk|apply Hrefl].
Qed.

Lemma inert_get thispv as_string : steps_in inert (get env thispv as_string).
Proof. intros w. by repeat split. Qed.

Lemma inert_get_ctrlvars thispv : steps_in inert (get_ctrlvars env thispv).
Proof. intros w. by repeat split. Qed.

Lemma inert_put thispv value wait timeout :
  steps_in inert (put env thispv value wait timeout).
Proof. intros w. by repeat split. Qed.

Lemma inert_info thispv : steps_in inert (info env thispv).
Proof. intros w. apply inert_refl. Qed.

Lemma inert_time_sleep d : steps_in inert (time_sleep env d).
Proof. intros w. by repeat split. Qed.

Lemma inert_sys_stdout_write s : steps_in inert (sys_stdout_write s).
Proof. intros w. repeat split; [done..|]. by exists [s]. Qed.

Lemma inert_callback writer pvname value char_value :
  steps_in inert (callback env writer pvname value char_value).
Proof.
  intros w. rewrite callback_unfold. unfold after at 1. cbv [snd].
  destruct writer; repeat split; try done. simpl. by eexists.
Qed.

Lemma inert_invoke cb pvname value char_value :
  steps_in inert (invoke env cb pvname value char_value).
Proof.
  destruct cb as [fn|writer]; [|apply inert_callback].
  intros w. by repeat split.
Qed.

Lemma inert_run_callbacks cbs pvname value char_value :
  steps_in inert (run_callbacks env cbs pvname value char_value).
Proof.
  induction cbs as [|cb cbs IH]; [apply steps_in_ret, inert_refl|].
  apply steps_in_bind; [apply inert_trans|apply inert_invoke|done].
Qed.

Lemma inert_notify h value char_value : steps_in inert (notify env h value char_value).
Proof.
  intros w. unfold notify, bind, gets.
  destruct (objects w !! h); [apply inert_run_callbacks|apply inert_refl].
Qed.

Lemma calm_add_callback thispv cb : steps_in calm (add_callback thispv cb).
Proof.
  intros w. repeat split; [|done]. intros h. by apply (name_of_alter (attach cb)).
Qed.

Lemma calm_clear_callbacks thispv : steps_in calm (clear_callbacks thispv).
Proof.
  intros w. repeat split; [|done]. intros h. by apply (name_of_alter detach_all).
Qed.

(** After the resolution, the three accessors are inert. *)
Lemma caget_tail_inert pvname as_string w :
  inert (after (__createPV env pvname default_timeout w))
        (after (caget env pvname as_string w)).
Proof.
  unfold caget.
  apply bind_after_steps; [apply inert_refl|].
  intros [thispv|]; [|apply steps_in_ret, inert_refl].
  apply steps_in_bind; [apply inert_trans|apply inert_get|]. intros val.
  apply steps_in_bind; [apply inert_trans|apply inert_time_sleep|]. intros _.
  destruct as_string; [|apply steps_in_ret, inert_refl].
  apply steps_in_bind; [apply inert_trans|apply inert_get_ctrlvars|]. intros _.
  apply steps_in_bind; [apply inert_trans|apply inert_time_sleep|]. intros _.
  apply inert_get.
Qed.

Lemma caput_tail_inert pvname value wait timeout w :
  inert (after (__createPV env pvname default_timeout w))
        (after (caput env pvname value wait timeout w)).
Proof.
  unfold caput.
  apply bind_after_steps; [apply inert_refl|].
  intros [thispv|]; [apply inert_put|apply steps_in_ret, inert_refl].
Qed.

Lemma cainfo_tail_inert pvname print_out w :
  inert (after (__createPV env pvname default_timeout w))
        (after (cainfo env pvname print_out w)).
Proof.
  unfold cainfo.
  apply bind_after_steps; [apply inert_refl|].
  intros [thispv|]; [|apply steps_in_ret, inert_refl].
  apply steps_in_bind; [apply inert_trans|apply inert_get|]. intros _.
  apply steps_in_bind; [apply inert_trans|apply inert_get_ctrlvars|]. intros _.
  destruct print_out.
  - apply steps_in_bind; [apply inert_trans|apply inert_info|]. intros text.
    apply steps_in_bind; [apply inert_trans|apply inert_sys_stdout_write|].
    intros _. apply steps_in_ret, inert_refl.
  - apply steps_in_bind; [apply inert_trans|apply inert_info|]. intros text.
    apply steps_in_ret, inert_refl.
Qed.

(** After the resolution and the assignment to [_Monitors], [camonitor] is
    calm. *)
Lemma camonitor_tail_calm pvname writer cb w :
  exists res w1,
    __createPV env pvname default_timeout w = (Ret res, w1) /\
    calm (with_Monitors (<[pvname := res]> (_Monitors w1)) w1)
         (after (camonitor env pvname writer cb w)).
Proof.
  destruct (__createPV env pvname default_timeout w) as [[res|e] w1] eqn:E.
  - exists res, w1. split; [done|]. unfold camonitor. unfold bind at 1.
    rewrite E, bind_modify.
    generalize (with_Monitors (<[pvname:=res]> (_Monitors w1)) w1).
    change (steps_in calm
      match res with
      | Some thispv =>
          get env thispv false ;;;
          add_callback thispv (chosen_callback writer cb) ;;; ret PyNone
      | None => ret PyNone
      end).
    assert (Hrefl : forall w, calm w w) by (intros w'; apply inert_calm, inert_refl).
    destruct res as [thispv|]; [|by apply steps_in_ret].
    apply steps_in_bind; [apply calm_trans| |].
    { intros w'. apply inert_calm, inert_get. }
    intros _. apply steps_in_bind; [apply calm_trans|apply calm_add_callback|].
    intros _. by apply steps_in_ret.
  - destruct (_Cache w !! pvname) as [h0|] eqn:Hc.
    + by rewrite (createPV_hit env _ _ _ _ Hc) in E.
    + rewrite createPV_miss in E by done. cbv zeta in E.
      by destruct (connected_at env _ _).
Qed.

Lemma camonitor_clear_calm pvname : steps_in calm (camonitor_clear pvname).
Proof.
  intros w. unfold camonitor_clear, bind, gets.
  assert (Hrefl : calm w w) by apply inert_calm, inert_refl.
  destruct (_Monitors w !! pvname) as [[thispv|]|]; [|done..].
  exact (calm_clear_callbacks thispv w).
Qed.

(** *** The registry and the callbacks *)

Lemma untouched_monitors_trans (w1 w2 w3 : World) :
  untouched_monitors w1 w2 -> untouched_monitors w2 w3 -> untouched_monitors w1 w3.
Proof.
  intros [HM Hcb] [HM' Hcb']. split; [congruence|].
  intros h. by rewrite Hcb', Hcb.
Qed.

Lemma untouched_monitors_inert (w w' : World) :
  inert w w' -> untouched_monitors w w'.
Proof.
  intros (_ & HM & HO & _). split; [done|].
  intros h. unfold callbacks_of. by rewrite HO.
Qed.

Lemma callbacks_of_launched (pvname : string) (w : World) (h : handle) :
  callbacks_of h (launched pvname w) = callbacks_of h w.
Proof.
  unfold callbacks_of. simpl.
  destruct (objects w !! h) as [o|] eqn:Ho.
  - by rewrite (lookup_app_l_Some _ _ _ _ Ho).
  - apply lookup_ge_None in Ho.
    destruct (decide (h = length (objects w))) as [->|Hne].
    + by rewrite list_lookup_middle.
    + rewrite lookup_ge_None_2; [done|]. rewrite length_app. simpl. lia.
Qed.

Lemma createPV_untouched_monitors pvname timeout w :
  untouched_monitors w (after (__createPV env pvname timeout w)).
Proof.
  destruct (_Cache w !! pvname) as [h0|] eqn:Hc.
  { rewrite (createPV_hit env _ _ _ _ Hc). by split. }
  rewrite createPV_miss by done. cbv zeta.
  destruct (poll_loop_frame env (next_handle w) (clock w) timeout (launched pvname w))
    as (_ & HM & HO & _).
  assert (Hcb : forall h,
    callbacks_of h (poll_loop env (next_handle w) (clock w) timeout
                      (launched pvname w)) = callbacks_of h w).
  { intros h. rewrite <- (callbacks_of_launched pvname w h).
    unfold callbacks_of. by rewrite HO. }
  destruct (connected_at env _ _); split; done.
Qed.

(** *** The entries of other names *)

Lemma same_elsewhere_trans pvname (w1 w2 w3 : World) :
  same_elsewhere pvname w1 w2 -> same_elsewhere pvname w2 w3 ->
  same_elsewhere pvname w1 w3.
Proof.
  intros H12 H23 other Hne.
  destruct (H12 other Hne) as [HC HM]. destruct (H23 other Hne) as [HC' HM'].
  split; congruence.
Qed.

Lemma same_elsewhere_calm pvname (w w' : World) :
  calm w w' -> same_elsewhere pvname w w'.
Proof. intros (HC & HM & _) other _. by rewrite HC, HM. Qed.

Lemma createPV_same_elsewhere pvname timeout w :
  same_elsewhere pvname w (after (__createPV env pvname timeout w)).
Proof.
  intros other Hne. destruct (_Cache w !! pvname) as [h0|] eqn:Hc.
  { by rewrite (createPV_hit env _ _ _ _ Hc). }
  rewrite createPV_miss by done. cbv zeta.
  destruct (poll_loop_frame env (next_handle w) (clock w) timeout (launched pvname w))
    as (HC & HM & _).
  destruct (connected_at env _ _); simpl; rewrite HC, HM; [|done].
  by rewrite lookup_insert_ne.
Qed.

(** *** What a session keeps *)

Lemma extends_refl (w : World) : extends w w.
Proof. by repeat split. Qed.

Lemma extends_trans (w1 w2 w3 : World) :
  extends w1 w2 -> extends w2 w3 -> extends w1 w3.
Proof.
  intros (HC & HM & HN & HS) (HC' & HM' & HN' & HS').
  repeat split; [by etrans|auto..|by etrans].
Qed.

Lemma extends_calm (w w' : World) : calm w w' -> extends w w'.
Proof.
  intros (HC & HM & HN & HS). repeat split; [by rewrite HC| | |done].
  - intros pvname. by rewrite HM.
  - intros h pvname. by rewrite HN.
Qed.

Lemma createPV_extends pvname timeout w :
  extends w (after (__createPV env pvname timeout w)).
Proof.
  destruct (_Cache w !! pvname) as [h0|] eqn:Hc.
  { rewrite (createPV_hit env _ _ _ _ Hc). apply extends_refl. }
  rewrite createPV_miss by done. cbv zeta.
  destruct (poll_loop_frame env (next_handle w) (clock w) timeout (launched pvname w))
    as (HC & HM & HO & HS & _).
  set (w1 := poll_loop env (next_handle w) (clock w) timeout (launched pvname w)) in *.
  assert (Hnames : forall h n, name_of h w = Some n -> name_of h w1 = Some n).
  { intros h n Hn. apply (name_of_launched_old pvname) in Hn.
    unfold name_of in *. by rewrite HO. }
  destruct (connected_at env _ _); simpl; repeat split; simpl;
    rewrite ?HC, ?HM, ?HS; try done.
  - by apply insert_subseteq.
  - by eexists.
Qed.

End Frames.

(** ** A session as a whole *)

(** X8. [caget], [caput] and [cainfo] never touch the monitors: whether the
    name resolves or not, and whether the calls below return or raise,
    [_Monitors] and the callbacks of every instance are as before. *)
Theorem accessors_leave_monitors_alone (env : Collaborator) (w : World)
    (pvname : string) :
  (forall as_string,
     untouched_monitors w (after (caget env pvname as_string w))) /\
  (forall value wait timeout,
     untouched_monitors w (after (caput env pvname value wait timeout w))) /\
  (forall print_out,
     untouched_monitors w (after (cainfo env pvname print_out w))).
Proof.
  pose proof (createPV_untouched_monitors env pvname default_timeout w) as Hres.
  split; [|split]; intros;
    (eapply untouched_monitors_trans; [exact Hres|]);
    apply untouched_monitors_inert.
  - apply caget_tail_inert.
  - apply caput_tail_inert.
  - apply cainfo_tail_inert.
Qed.

(** X9. A call on one name leaves the entries of every other name alone,
    in [_Cache] and in [_Monitors], for each of the five functions. *)
Theorem other_names_untouched (env : Collaborator) (w : World)
    (pvname other : string) :
  other <> pvname ->
  (forall as_string,
     entries_of other (after (caget env pvname as_string w)) = entries_of other w) /\
  (forall value wait timeout,
     entries_of other (after (caput env pvname value wait timeout w))
       = entries_of other w) /\
  (forall print_out,
     entries_of other (after (cainfo env pvname print_out w)) = entries_of other w) /\
  (forall writer cb,
     entries_of other (after (camonitor env pvname writer cb w))
       = entries_of other w) /\
  entries_of other (after (camonitor_clear pvname w)) = entries_of other w.
Proof.
  intros Hne.
  assert (Hentries : forall w', same_elsewhere pvname w w' ->
            entries_of other w' = entries_of other w).
  { intros w' Hw'. destruct (Hw' other Hne) as [HC HM].
    unfold entries_of. by rewrite HC, HM. }
  pose proof (createPV_same_elsewhere env pvname default_timeout w) as Hres.
  split; [|split; [|split; [|split]]]; intros; apply Hentries.
  - eapply same_elsewhere_trans; [exact Hres|].
    apply same_elsewhere_calm, inert_calm, caget_tail_inert.
  - eapply same_elsewhere_trans; [exact Hres|].
    apply same_elsewhere_calm, inert_calm, caput_tail_inert.
  - eapply same_elsewhere_trans; [exact Hres|].
    apply same_elsewhere_calm, inert_calm, cainfo_tail_inert.
  - destruct (camonitor_tail_calm env pvname writer cb w)
      as (res & w1 & E & Hcalm).
    rewrite E in Hres. simpl in Hres.
    eapply same_elsewhere_trans; [exact Hres|].
    eapply same_elsewhere_trans; [|apply same_elsewhere_calm, Hcalm].
    intros n Hn. simpl. by rewrite lookup_insert_ne.
  - apply same_elsewhere_calm, camonitor_clear_calm.
Qed.

Lemma other_names_untouched_witness :
  "Y.VAL" <> "X.VAL" /\
  entries_of "Y.VAL" (after (camonitor live_env "X.VAL" None None fresh_world))
    = entries_of "Y.VAL" fresh_world.
Proof.
  assert (Hne : "Y.VAL" <> "X.VAL") by discriminate.
  split; [exact Hne|].
  destruct (other_names_untouched live_env fresh_world "X.VAL" "Y.VAL" Hne)
    as (_ & _ & _ & Hmon & _).
  exact (Hmon None None).
Defined.

Lemma session_step_extends (env : Collaborator) (w w' : World) :
  session_step env w w' -> extends w w'.
Proof.
  destruct 1 as [w pvname as_string|w pvname value wait timeout|w pvname print_out
                |w pvname writer cb|w pvname|w d Hd|w h value char_value].
  - eapply extends_trans; [apply (createPV_extends env pvname default_timeout)|].
    apply extends_calm, inert_calm, caget_tail_inert.
  - eapply extends_trans; [apply (createPV_extends env pvname default_timeout)|].
    apply extends_calm, inert_calm, caput_tail_inert.
  - eapply extends_trans; [apply (createPV_extends env pvname default_timeout)|].
    apply extends_calm, inert_calm, cainfo_tail_inert.
  - destruct (camonitor_tail_calm env pvname writer cb w) as (res & w1 & E & Hcalm).
    pose proof (createPV_extends env pvname default_timeout w) as Hres.
    rewrite E in Hres. simpl in Hres.
    eapply extends_trans; [exact Hres|].
    eapply extends_trans; [|apply extends_calm, Hcalm].
    repeat split; try done. intros n Hn. simpl.
    destruct (decide (pvname = n)) as [<-|Hne].
    + by rewrite lookup_insert_eq.
    + by rewrite lookup_insert_ne.
  - apply extends_calm, camonitor_clear_calm.
  - apply extends_calm, inert_calm, (inert_time_sleep env d).
  - apply extends_calm, inert_calm, inert_notify.
Qed.

(** X10. Nothing is ever taken back.  Whatever a session does from a world
    on, every entry of [_Cache] stays as it is, every name in [_Monitors]
    stays in it, every instance keeps its PV name, and what was written to
    [sys.stdout] stays written. *)
Theorem session_only_grows (env : Collaborator) (w w' : World) :
  rtc (session_step env) w w' -> extends w w'.
Proof.
  induction 1 as [w|w w1 w2 Hstep _ IH]; [apply extends_refl|].
  eapply extends_trans; [|exact IH]. by apply (session_step_extends env).
Qed.

Lemma session_only_grows_witness :
  rtc (session_step live_env) fresh_world
      (after (camonitor_clear "X.VAL"
                (after (camonitor live_env "X.VAL" None None fresh_world)))) /\
  extends fresh_world
      (after (camonitor_clear "X.VAL"
                (after (camonitor live_env "X.VAL" None None fresh_world)))).
Proof.
  assert (H : rtc (session_step live_env) fresh_world
      (after (camonitor_clear "X.VAL"
                (after (camonitor live_env "X.VAL" None None fresh_world))))).
  { apply (rtc_l _ _ (after (camonitor live_env "X.VAL" None None fresh_world)));
      [apply step_camonitor|].
    apply rtc_once. apply (step_camonitor_clear live_env). }
  split; [exact H|]. exact (session_only_grows live_env _ _ H).
Defined.

(** X11. In every world of a session, a cached name maps to an instance
    that was made for that name, two names never share a handle, and a
    handle in [_Monitors] is the one cached for the name. *)
Theorem session_tables_consistent (env : Collaborator) (w : World) :
  reachable env w ->
  (forall pvname h, _Cache w !! pvname = Some h -> name_of h w = Some pvname) /\
  (forall pvname pvname' h,
     _Cache w !! pvname = Some h -> _Cache w !! pvname' = Some h ->
     pvname = pvname') /\
  (forall pvname h, _Monitors w !! pvname = Some (Some h) ->
     _Cache w !! pvname = Some h).
Proof.
  intros Hreach. destruct (reachable_consistent env w Hreach) as [H1 H2].
  split; [exact H1|]. split; [|exact H2].
  intros n n' h Hn Hn'. apply H1 in Hn, Hn'. congruence.
Qed.

Lemma session_tables_consistent_witness :
  let w := after (camonitor live_env "X.VAL" None None fresh_world) in
  reachable live_env w /\
  (forall pvname h, _Cache w !! pvname = Some h -> name_of h w = Some pvname) /\
  (forall pvname pvname' h,
     _Cache w !! pvname = Some h -> _Cache w !! pvname' = Some h ->
     pvname = pvname') /\
  (forall pvname h, _Monitors w !! pvname = Some (Some h) ->
     _Cache w !! pvname = Some h).
Proof.
  assert (H : reachable live_env
                (after (camonitor live_env "X.VAL" None None fresh_world)))
    by apply reach_camonitor, (reach_import live_env 0).
  split; [exact H|]. exact (session_tables_consistent live_env _ H).
Defined.

(** ** Setting and clearing a monitor *)

(** X12. The first [camonitor] on a name that is not cached and resolves:
    the calls on the new instance after the resolution are one [get()] and
    one [add_callback], the instance carries exactly the callback chosen
    from the arguments, and both dictionaries map the name to its handle. *)
Theorem first_monitor_attaches_one (env : Collaborator) (w w1 : World)
    (pvname : string) (h : handle) (writer : option Writer)
    (cb : option Callback) :
  _Cache w !! pvname = None ->
  __createPV env pvname default_timeout w = (Ret (Some h), w1) ->
  (exists v, get_reply env h false (clock w1) = Ret v) ->
  result (camonitor env pvname writer cb w) = Ret PyNone /\
  calls (after (camonitor env pvname writer cb w))
    = calls w1 ++ [EvGet h false; EvAddCallback h (chosen_callback writer cb)] /\
  callbacks_of h (after (camonitor env pvname writer cb w))
    = [chosen_callback writer cb] /\
  _Cache (after (camonitor env pvname writer cb w)) !! pvname = Some h /\
  _Monitors (after (camonitor env pvname writer cb w)) !! pvname = Some (Some h).
Proof.
  intros Hmiss Hres [v Hv].
  destruct (createPV_success env _ _ _ _ _ Hres) as (Hc & _).
  assert (Hobj : objects w1 !! h = Some (mkPV pvname [])).
  { rewrite createPV_miss in Hres by done. cbv zeta in Hres.
    destruct (poll_loop_frame env (next_handle w) (clock w) default_timeout
                (launched pvname w)) as (_ & _ & HO & _).
    destruct (connected_at env _ _); [|done].
    injection Hres as <- <-. simpl. rewrite HO. simpl.
    by rewrite list_lookup_middle. }
  resolved_as Hres. unfold get. simpl. rewrite Hv. simpl.
  fold (chosen_callback writer cb).
  split; [done|]. split; [by rewrite <- app_assoc|].
  split; [|split; [done|by rewrite lookup_insert_eq]].
  unfold callbacks_of. simpl. rewrite list_lookup_alter, Hobj.
  by case_decide.
Qed.

Lemma first_monitor_attaches_one_witness :
  let w1 := after (__createPV live_env "X.VAL" default_timeout fresh_world) in
  _Cache fresh_world !! "X.VAL" = None /\
  __createPV live_env "X.VAL" default_timeout fresh_world = (Ret (Some 0%nat), w1) /\
  (exists v, get_reply live_env 0%nat false (clock w1) = Ret v) /\
  result (camonitor live_env "X.VAL" None None fresh_world) = Ret PyNone /\
  calls (after (camonitor live_env "X.VAL" None None fresh_world))
    = calls w1 ++ [EvGet 0%nat false;
                   EvAddCallback 0%nat (chosen_callback None None)] /\
  callbacks_of 0%nat (after (camonitor live_env "X.VAL" None None fresh_world))
    = [chosen_callback None None] /\
  _Cache (after (camonitor live_env "X.VAL" None None fresh_world)) !! "X.VAL"
    = Some 0%nat /\
  _Monitors (after (camonitor live_env "X.VAL" None None fresh_world)) !! "X.VAL"
    = Some (Some 0%nat).
Proof.
  assert (H : __createPV live_env "X.VAL" default_timeout fresh_world
              = (Ret (Some 0%nat),
                 after (__createPV live_env "X.VAL" default_timeout fresh_world))).
  { vm_compute. reflexivity. }
  assert (Hv : exists v, get_reply live_env 0%nat false
                 (clock (after (__createPV live_env "X.VAL" default_timeout fresh_world)))
               = Ret v) by (eexists; reflexivity).
  split; [reflexivity|]. split; [exact H|]. split; [exact Hv|].
  exact (first_monitor_attaches_one live_env fresh_world _ "X.VAL" 0%nat None None
           eq_refl H Hv).
Defined.

Lemma callbacks_of_alter_ne (f : PVobj -> PVobj) (h h' : handle) (w : World) :
  h' <> h ->
  callbacks_of h' (with_objects (alter f h (objects w)) w) = callbacks_of h' w.
Proof.
  intros Hne. unfold callbacks_of. simpl. by rewrite list_lookup_alter_ne.
Qed.

(** X13. [camonitor_clear] on a name that is not in [_Monitors] changes
    nothing at all.  On a name registered with a handle it makes one call,
    [clear_callbacks()] on that handle: the instance is left without
    callbacks, the callbacks of the other instances are as before, and the
    name stays in [_Monitors] and in [_Cache], mapped as it was. *)
Theorem camonitor_clear_effect (w : World) (pvname : string) :
  (_Monitors w !! pvname = None ->
   camonitor_clear pvname w = (Ret PyNone, w)) /\
  (forall h, _Monitors w !! pvname = Some (Some h) ->
     result (camonitor_clear pvname w) = Ret PyNone /\
     calls (after (camonitor_clear pvname w)) = calls w ++ [EvClearCallbacks h] /\
     callbacks_of h (after (camonitor_clear pvname w)) = [] /\
     (forall h', h' <> h ->
        callbacks_of h' (after (camonitor_clear pvname w)) = callbacks_of h' w) /\
     _Monitors (after (camonitor_clear pvname w)) = _Monitors w /\
     _Cache (after (camonitor_clear pvname w)) = _Cache w /\
     stdout (after (camonitor_clear pvname w)) = stdout w).
Proof.
  split; [apply camonitor_clear_absent|].
  intros h Hmon.
  destruct (camonitor_clear_registered pvname w h Hmon) as (Hres & Hcb & HM).
  split; [done|]. split; [|split; [done|split; [|split; [done|]]]].
  - unfold camonitor_clear, bind, gets. by rewrite Hmon.
  - intros h' Hne. unfold camonitor_clear, bind, gets. rewrite Hmon. simpl.
    by apply (callbacks_of_alter_ne detach_all).
  - unfold camonitor_clear, bind, gets. by rewrite Hmon.
Qed.

Lemma camonitor_clear_effect_witness :
  let w := after (camonitor live_env "X.VAL" None None fresh_world) in
  (_Monitors fresh_world !! "X.VAL" = None /\
   camonitor_clear "X.VAL" fresh_world = (Ret PyNone, fresh_world)) /\
  (_Monitors w !! "X.VAL" = Some (Some 0%nat) /\
   result (camonitor_clear "X.VAL" w) = Ret PyNone /\
   calls (after (camonitor_clear "X.VAL" w)) = calls w ++ [EvClearCallbacks 0%nat] /\
   callbacks_of 0%nat (after (camonitor_clear "X.VAL" w)) = [] /\
   (forall h', h' <> 0%nat ->
      callbacks_of h' (after (camonitor_clear "X.VAL" w)) = callbacks_of h' w) /\
   _Monitors (after (camonitor_clear "X.VAL" w)) = _Monitors w /\
   _Cache (after (camonitor_clear "X.VAL" w)) = _Cache w /\
   stdout (after (camonitor_clear "X.VAL" w)) = stdout w).
Proof.
  set (w := after (camonitor live_env "X.VAL" None None fresh_world)).
  assert (Hmon : _Monitors w !! "X.VAL" = Some (Some 0%nat))
    by (vm_compute; reflexivity).
  split.
  - split; [reflexivity|].
    exact (proj1 (camonitor_clear_effect fresh_world "X.VAL") eq_refl).
  - split; [exact Hmon|].
    exact (proj2 (camonitor_clear_effect w "X.VAL") 0%nat Hmon).
Defined.

(** X14. Clearing and then monitoring again replaces the callback: for a
    name that is monitored, [camonitor_clear] followed by [camonitor]
    leaves the instance with exactly the new callback, and [_Monitors] as
    it was. *)
Theorem clear_then_monitor_replaces (env : Collaborator) (w : World)
    (pvname : string) (h : handle) (writer : option Writer)
    (cb : option Callback) :
  reachable env w ->
  _Monitors w !! pvname = Some (Some h) ->
  (exists v, get_reply env h false (clock w) = Ret v) ->
  result (camonitor env pvname writer cb (after (camonitor_clear pvname w)))
    = Ret PyNone /\
  callbacks_of h
    (after (camonitor env pvname writer cb (after (camonitor_clear pvname w))))
    = [chosen_callback writer cb] /\
  _Monitors
    (after (camonitor env pvname writer cb (after (camonitor_clear pvname w))))
    = _Monitors w.
Proof.
  intros Hreach Hmon Hget.
  destruct (camonitor_clear_registered pvname w h Hmon) as (_ & Hcb & HM).
  pose proof (reach_camonitor_clear env w pvname Hreach) as Hreach'.
  pose proof (reachable_consistent env _ Hreach') as Hw'.
  set (w' := after (camonitor_clear pvname w)) in *.
  assert (Hclock : clock w' = clock w).
  { subst w'. unfold camonitor_clear, bind, gets. by rewrite Hmon. }
  assert (Hmon' : _Monitors w' !! pvname = Some (Some h)) by by rewrite HM.
  pose proof (proj2 Hw' _ _ Hmon') as Hc.
  pose proof (createPV_hit env pvname default_timeout w' h Hc) as Hres.
  rewrite <- Hclock in Hget.
  destruct (camonitor_attaches env pvname writer cb w' w' h Hw' Hres Hget)
    as (Hr & HM' & Hcbs & _).
  split; [done|]. split; [by rewrite Hcbs, Hcb|].
  rewrite HM', HM. by apply insert_id.
Qed.

Lemma clear_then_monitor_replaces_witness :
  let w := after (camonitor live_env "X.VAL" None (Some (UserCallback 1)) fresh_world) in
  reachable live_env w /\
  _Monitors w !! "X.VAL" = Some (Some 0%nat) /\
  (exists v, get_reply live_env 0%nat false (clock w) = Ret v) /\
  result (camonitor live_env "X.VAL" None (Some (UserCallback 2))
            (after (camonitor_clear "X.VAL" w))) = Ret PyNone /\
  callbacks_of 0%nat
    (after (camonitor live_env "X.VAL" None (Some (UserCallback 2))
              (after (camonitor_clear "X.VAL" w))))
    = [chosen_callback None (Some (UserCallback 2))] /\
  _Monitors
    (after (camonitor live_env "X.VAL" None (Some (UserCallback 2))
              (after (camonitor_clear "X.VAL" w))))
    = _Monitors w.
Proof.
  set (w := after (camonitor live_env "X.VAL" None (Some (UserCallback 1)) fresh_world)).
  assert (Hreach : reachable live_env w)
    by apply reach_camonitor, (reach_import live_env 0).
  assert (Hmon : _Monitors w !! "X.VAL" = Some (Some 0%nat))
    by (vm_compute; reflexivity).
  assert (Hget : exists v, get_reply live_env 0%nat false (clock w) = Ret v)
    by (eexists; reflexivity).
  split; [exact Hreach|]. split; [exact Hmon|]. split; [exact Hget|].
  exact (clear_then_monitor_replaces live_env w "X.VAL" 0%nat None
           (Some (UserCallback 2)) Hreach Hmon Hget).
Defined.

(** ** More on the default callback *)

Lemma str_take_all (n : nat) (s : string) :
  (String.length s <= n)%nat -> str_take n s = s.
Proof.
  revert s. induction n as [|n IH]; intros [|c s] Hlen; simpl in *; try done.
  - lia.
  - rewrite IH; [done|lia].
Qed.

(** X15. A PV name of at most 32 characters is written in full by the
    default callback: the string handed to the writer is [str(pvname)], a
    space, the time stamp, a space, the formatted value and a line feed. *)
Theorem callback_short_name_in_full (env : Collaborator) (writer : Writer)
    (pvname value char_value : pyvalue) (w : World) :
  (String.length (py_str env pvname) <= 32)%nat ->
  written_by writer (after (callback env writer pvname value char_value w))
  = written_by writer w ++
    [py_str env pvname +:+ " " +:+ fmt_time_at env (clock w) +:+ " "
       +:+ match char_value with
           | PyNone => py_repr env value
           | _ => py_str env char_value
           end
       +:+ LF].
Proof.
  intros Hlen. rewrite callback_unfold. unfold after at 1. cbv [snd].
  rewrite written_by_call_writer, (str_take_all 32 _ Hlen).
  by destruct char_value.
Qed.

Lemma callback_short_name_in_full_witness :
  (String.length (py_str live_env (PyStr "X.VAL")) <= 32)%nat /\
  written_by SysStdoutWrite
    (after (callback live_env SysStdoutWrite (PyStr "X.VAL") (PyInt 3) PyNone
              fresh_world))
  = written_by SysStdoutWrite fresh_world ++
    [py_str live_env (PyStr "X.VAL") +:+ " "
       +:+ fmt_time_at live_env (clock fresh_world) +:+ " "
       +:+ py_repr live_env (PyInt 3) +:+ LF].
Proof.
  assert (Hlen : (String.length (py_str live_env (PyStr "X.VAL")) <= 32)%nat)
    by (simpl; lia).
  split; [exact Hlen|].
  exact (callback_short_name_in_full live_env SysStdoutWrite (PyStr "X.VAL")
           (PyInt 3) PyNone fresh_world Hlen).
Defined.

(** X16. The default callback writes to its writer and to nothing else: the
    dictionaries, the instances and the log of calls are as before, and no
    other writer has received anything; in particular a monitor with a
    writer of its own never writes to [sys.stdout]. *)
Theorem callback_writes_nowhere_else (env : Collaborator) (writer other : Writer)
    (pvname value char_value : pyvalue) (w : World) :
  other <> writer ->
  written_by other (after (callback env writer pvname value char_value w))
    = written_by other w /\
  _Cache (after (callback env writer pvname value char_value w)) = _Cache w /\
  _Monitors (after (callback env writer pvname value char_value w)) = _Monitors w /\
  objects (after (callback env writer pvname value char_value w)) = objects w /\
  calls (after (callback env writer pvname value char_value w)) = calls w.
Proof.
  intros Hne. rewrite callback_unfold. unfold after at 1 3 5 7 9. cbv [snd].
  destruct writer as [|fn]; simpl.
  - repeat split. by destruct other.
  - repeat split. destruct other as [|fn']; [done|]. simpl.
    rewrite List.filter_app, fmap_app. simpl.
    destruct (Nat.eqb_spec fn fn') as [->|Hfn]; [done|].
    simpl. by rewrite app_nil_r.
Qed.

Lemma callback_writes_nowhere_else_witness :
  SysStdoutWrite <> UserWriter 5 /\
  written_by SysStdoutWrite
    (after (callback live_env (UserWriter 5) (PyStr "X.VAL") (PyInt 3) PyNone
              fresh_world))
    = written_by SysStdoutWrite fresh_world.
Proof.
  assert (Hne : SysStdoutWrite <> UserWriter 5) by discriminate.
  split; [exact Hne|].
  exact (proj1 (callback_writes_nowhere_else live_env (UserWriter 5) SysStdoutWrite
                  (PyStr "X.VAL") (PyInt 3) PyNone fresh_world Hne)).
Defined.

(** ** A resolved name, for the rest of the session *)

Section SessionLog.

Context (env : Collaborator).

Lemma logs_refl (P : Event -> Prop) (w : World) : logs P w w.
Proof. exists []. by rewrite app_nil_r. Qed.

Lemma logs_trans (P : Event -> Prop) (w1 w2 w3 : World) :
  logs P w1 w2 -> logs P w2 w3 -> logs P w1 w3.
Proof.
  intros (l1 & H1 & HP1) (l2 & H2 & HP2). exists (l1 ++ l2).
  split; [by rewrite H2, H1, <- app_assoc|by apply Forall_app].
Qed.

Lemma logs_impl (P Q : Event -> Prop) (w w' : World) :
  (forall e, P e -> Q e) -> logs P w w' -> logs Q w w'.
Proof.
  intros HPQ (l & Hl & HP). exists l. split; [done|].
  eapply Forall_impl; [exact HP|exact HPQ].
Qed.

Lemma logs_one (P : Event -> Prop) (e : Event) (w w' : World) :
  calls w' = calls w ++ [e] -> P e -> logs P w w'.
Proof. intros Hl He. exists [e]. split; [done|]. by constructor. Qed.

Lemma logs_none (P : Event -> Prop) (w w' : World) :
  calls w' = calls w -> logs P w w'.
Proof. intros Hl. exists []. by rewrite app_nil_r. Qed.

Lemma plain_get thispv as_string :
  steps_in (logs plain_event) (get env thispv as_string).
Proof. intros w. by eapply logs_one. Qed.

Lemma plain_get_ctrlvars thispv : steps_in (logs plain_event) (get_ctrlvars env thispv).
Proof. intros w. by eapply logs_one. Qed.

Lemma plain_put thispv value wait timeout :
  steps_in (logs plain_event) (put env thispv value wait timeout).
Proof. intros w. by eapply logs_one. Qed.

Lemma plain_info thispv : steps_in (logs plain_event) (info env thispv).
Proof. intros w. apply logs_refl. Qed.

Lemma plain_time_sleep d : steps_in (logs plain_event) (time_sleep env d).
Proof. intros w. by eapply logs_one. Qed.

Lemma plain_sys_stdout_write s : steps_in (logs plain_event) (sys_stdout_write s).
Proof. intros w. by apply logs_none. Qed.

Lemma plain_add_callback thispv cb :
  steps_in (logs plain_event) (add_callback thispv cb).
Proof. intros w. by eapply logs_one. Qed.

Lemma plain_clear_callbacks thispv :
  steps_in (logs plain_event) (clear_callbacks thispv).
Proof. intros w. by eapply logs_one. Qed.

Lemma plain_callback writer pvname value char_value :
  steps_in (logs plain_event) (callback env writer pvname value char_value).
Proof.
  intros w. rewrite callback_unfold. unfold after at 1. cbv [snd].
  apply logs_none. by destruct writer.
Qed.

Lemma plain_invoke cb pvname value char_value :
  steps_in (logs plain_event) (invoke env cb pvname value char_value).
Proof.
  destruct cb as [fn|writer]; [|apply plain_callback].
  intros w. by eapply logs_one.
Qed.

Lemma plain_run_callbacks cbs pvname value char_value :
  steps_in (logs plain_event) (run_callbacks env cbs pvname value char_value).
Proof.
  induction cbs as [|cb cbs IH]; [apply steps_in_ret, logs_refl|].
  apply steps_in_bind; [apply logs_trans|apply plain_invoke|done].
Qed.

Lemma plain_notify h value char_value :
  steps_in (logs plain_event) (notify env h value char_value).
Proof.
  intros w. unfold notify, bind, gets.
  destruct (objects w !! h); [apply plain_run_callbacks|apply logs_refl].
Qed.

(** After the resolution, the functions make plain calls only. *)
Lemma caget_tail_plain pvname as_string w :
  logs plain_event (after (__createPV env pvname default_timeout w))
       (after (caget env pvname as_string w)).
Proof.
  unfold caget. apply bind_after_steps; [apply logs_refl|].
  intros [thispv|]; [|apply steps_in_ret, logs_refl].
  apply steps_in_bind; [apply logs_trans|apply plain_get|]. intros val.
  apply steps_in_bind; [apply logs_trans|apply plain_time_sleep|]. intros _.
  destruct as_string; [|apply steps_in_ret, logs_refl].
  apply steps_in_bind; [apply logs_trans|apply plain_get_ctrlvars|]. intros _.
  apply steps_in_bind; [apply logs_trans|apply plain_time_sleep|]. intros _.
  apply plain_get.
Qed.

Lemma caput_tail_plain pvname value wait timeout w :
  logs plain_event (after (__createPV env pvname default_timeout w))
       (after (caput env pvname value wait timeout w)).
Proof.
  unfold caput. apply bind_after_steps; [apply logs_refl|].
  intros [thispv|]; [apply plain_put|apply steps_in_ret, logs_refl].
Qed.

Lemma cainfo_tail_plain pvname print_out w :
  logs plain_event (after (__createPV env pvname default_timeout w))
       (after (cainfo env pvname print_out w)).
Proof.
  unfold cainfo. apply bind_after_steps; [apply logs_refl|].
  intros [thispv|]; [|apply steps_in_ret, logs_refl].
  apply steps_in_bind; [apply logs_trans|apply plain_get|]. intros _.
  apply steps_in_bind; [apply logs_trans|apply plain_get_ctrlvars|]. intros _.
  destruct print_out.
  - apply steps_in_bind; [apply logs_trans|apply plain_info|]. intros text.
    apply steps_in_bind; [apply logs_trans|apply plain_sys_stdout_write|].
    intros _. apply steps_in_ret, logs_refl.
  - apply steps_in_bind; [apply logs_trans|apply plain_info|]. intros text.
    apply steps_in_ret, logs_refl.
Qed.

Lemma camonitor_tail_plain pvname writer cb w :
  logs plain_event (after (__createPV env pvname default_timeout w))
       (after (camonitor env pvname writer cb w)).
Proof.
  unfold camonitor. apply bind_after_steps; [apply logs_refl|].
  intros res.
  apply steps_in_bind; [apply logs_trans| |].
  { intros w'. by apply logs_none. }
  intros _. destruct res as [thispv|]; [|apply steps_in_ret, logs_refl].
  apply steps_in_bind; [apply logs_trans|apply plain_get|]. intros _.
  apply steps_in_bind; [apply logs_trans|apply plain_add_callback|]. intros _.
  apply steps_in_ret, logs_refl.
Qed.

Lemma camonitor_clear_plain pvname : steps_in (logs plain_event) (camonitor_clear pvname).
Proof.
  intros w. unfold camonitor_clear, bind, gets.
  destruct (_Monitors w !! pvname) as [[thispv|]|]; [|apply logs_refl..].
  exact (plain_clear_callbacks thispv w).
Qed.

Lemma plain_spares (pvname : string) (w : World) (e : Event) :
  plain_event e -> spares pvname w e.
Proof. by destruct e. Qed.

(** An instance keeps its name, so a call that spared a name goes on
    sparing it. *)
Lemma spares_extends (pvname : string) (w w' : World) (e : Event) :
  extends w w' -> spares pvname w e -> spares pvname w' e.
Proof.
  intros (_ & _ & HN & _). destruct e; simpl; try done.
  intros (n & Hn & Hne). exists n. split; [by apply HN|done].
Qed.

Lemma logs_spares_extends (pvname : string) (w0 w1 w w' : World) :
  extends w w' -> logs (spares pvname w) w0 w1 -> logs (spares pvname w') w0 w1.
Proof.
  intros Hext. apply logs_impl. intros e. by apply spares_extends.
Qed.

(** The resolution of any name spares a name that is cached. *)
Lemma createPV_spares (pvname other : string) (timeout : Z) (w : World) (h : handle) :
  _Cache w !! pvname = Some h ->
  logs (spares pvname (after (__createPV env other timeout w)))
       w (after (__createPV env other timeout w)).
Proof.
  intros Hc. destruct (_Cache w !! other) as [h0|] eqn:Ho.
  { rewrite (createPV_hit env _ _ _ _ Ho). apply logs_refl. }
  assert (Hne : other <> pvname) by congruence.
  rewrite createPV_miss by done. cbv zeta.
  destruct (poll_loop_frame env (next_handle w) (clock w) timeout (launched other w))
    as (_ & _ & HO & _).
  destruct (poll_loop_sleeps env (next_handle w) (clock w) timeout (launched other w))
    as (n & Hcalls & _).
  set (w1 := poll_loop env (next_handle w) (clock w) timeout (launched other w)) in *.
  assert (Hname : name_of (next_handle w) w1 = Some other).
  { unfold name_of. rewrite HO. apply name_of_launched_new. }
  assert (Hlog : forall w', calls w' = calls w1 -> name_of (next_handle w) w' = Some other ->
            logs (spares pvname w') w w').
  { intros w' Hl Hn.
    exists ([EvPV (next_handle w) other; EvConnect (next_handle w)]
              ++ replicate n (EvSleep poll_interval)).
    split.
    - rewrite Hl, Hcalls. simpl. by rewrite <- !app_assoc.
    - apply Forall_app. split.
      + repeat constructor; simpl; [done|]. by exists other.
      + apply Forall_replicate. by simpl. }
  destruct (connected_at env _ _); apply Hlog; done.
Qed.

(** One step of a session spares a name that is cached. *)
Lemma session_step_spares (pvname : string) (h : handle) (w w' : World) :
  _Cache w !! pvname = Some h ->
  session_step env w w' ->
  logs (spares pvname w') w w'.
Proof.
  intros Hc Hstep.
  assert (Htail : forall other w1,
            w1 = after (__createPV env other default_timeout w) ->
            calm w1 w' \/ inert w1 w' \/
              (exists res, calm (with_Monitors (<[other := res]> (_Monitors w1)) w1) w') ->
            logs plain_event w1 w' -> logs (spares pvname w') w w').
  { intros other w1 -> Hcalm Hplain.
    eapply logs_trans; [|eapply logs_impl; [|exact Hplain]];
      [|intros e; apply plain_spares].
    eapply logs_spares_extends; [|by eapply createPV_spares].
    destruct Hcalm as [Hcalm|[Hin|(res & Hcalm)]].
    - by apply extends_calm.
    - by apply extends_calm, inert_calm.
    - destruct Hcalm as (HC & HM & HN & HS). simpl in *.
      repeat split; [by rewrite HC| |intros h' n; by rewrite HN|done].
      intros n Hn. rewrite HM.
      destruct (decide (other = n)) as [<-|Hne].
      + by rewrite lookup_insert_eq.
      + by rewrite lookup_insert_ne. }
  destruct Hstep as [w pvname' as_string|w pvname' value wait timeout
                    |w pvname' print_out|w pvname' writer cb|w pvname'|w d Hd
                    |w h' value char_value].
  - apply (Htail pvname' _ eq_refl); [|apply caget_tail_plain].
    right. left. apply caget_tail_inert.
  - apply (Htail pvname' _ eq_refl); [|apply caput_tail_plain].
    right. left. apply caput_tail_inert.
  - apply (Htail pvname' _ eq_refl); [|apply cainfo_tail_plain].
    right. left. apply cainfo_tail_inert.
  - apply (Htail pvname' _ eq_refl); [|apply camonitor_tail_plain].
    right. right.
    destruct (camonitor_tail_calm env pvname' writer cb w) as (res & w1 & E & Hcalm).
    exists res. by rewrite E.
  - eapply logs_impl; [intros e; apply plain_spares|apply camonitor_clear_plain].
  - eapply logs_impl; [intros e; apply plain_spares|apply (plain_time_sleep d)].
  - eapply logs_impl; [intros e; apply plain_spares|apply plain_notify].
Qed.

(** Over any number of steps: the session only grows, and it spares a name
    that is cached. *)
Lemma session_spares (pvname : string) (h : handle) (w w' : World) :
  _Cache w !! pvname = Some h ->
  rtc (session_step env) w w' ->
  extends w w' /\ logs (spares pvname w') w w'.
Proof.
  intros Hc Hrtc. revert Hc.
  induction Hrtc as [w|w w1 w2 Hstep _ IH]; intros Hc.
  { split; [apply extends_refl|apply logs_refl]. }
  pose proof (session_step_extends env _ _ Hstep) as Hext1.
  assert (Hc1 : _Cache w1 !! pvname = Some h).
  { destruct Hext1 as (HC & _). by eapply lookup_weaken. }
  destruct (IH Hc1) as [Hext2 Hlog2].
  split; [by eapply extends_trans|].
  eapply logs_trans; [|exact Hlog2].
  eapply logs_spares_extends; [exact Hext2|].
  by eapply session_step_spares.
Qed.

End SessionLog.

(** C3, amended. Once a resolution of a name has returned a handle, the
    name stays in [_Cache] under that handle whatever the session does
    next, and at any later point a resolution of the name returns that same
    handle and leaves the world as it is: no instance is made, no
    [connect()] is issued, nothing is waited for.  From the successful
    resolution on, the log of the session holds no [PV(pvname)] and no
    [connect()] on an instance of the name. *)
Theorem resolution_idempotent (env : Collaborator) (w w1 w2 : World)
    (pvname : string) (timeout : Z) (h : handle) :
  __createPV env pvname timeout w = (Ret (Some h), w1) ->
  rtc (session_step env) w1 w2 ->
  _Cache w2 !! pvname = Some h /\
  (forall timeout', __createPV env pvname timeout' w2 = (Ret (Some h), w2)) /\
  logs (spares pvname w2) w1 w2.
Proof.
  intros Hres Hrtc.
  destruct (createPV_success env _ _ _ _ _ Hres) as (Hc & _).
  destruct (session_spares env pvname h w1 w2 Hc Hrtc) as [(HC & _) Hlog].
  assert (Hc2 : _Cache w2 !! pvname = Some h) by by eapply lookup_weaken.
  split; [done|]. split; [|done].
  intros timeout'. by apply createPV_hit.
Qed.

Lemma resolution_idempotent_witness :
  let w1 := after (__createPV live_env "X.VAL" default_timeout fresh_world) in
  let w2 := after (caget live_env "Y.VAL" false
                     (after (camonitor live_env "X.VAL" None None w1))) in
  __createPV live_env "X.VAL" default_timeout fresh_world = (Ret (Some 0%nat), w1) /\
  rtc (session_step live_env) w1 w2 /\
  _Cache w2 !! "X.VAL" = Some 0%nat /\
  (forall timeout', __createPV live_env "X.VAL" timeout' w2 = (Ret (Some 0%nat), w2)) /\
  logs (spares "X.VAL" w2) w1 w2.
Proof.
  set (w1 := after (__createPV live_env "X.VAL" default_timeout fresh_world)).
  set (w2 := after (caget live_env "Y.VAL" false
                      (after (camonitor live_env "X.VAL" None None w1)))).
  assert (H : __createPV live_env "X.VAL" default_timeout fresh_world
              = (Ret (Some 0%nat), w1)).
  { vm_compute. reflexivity. }
  assert (Hrtc : rtc (session_step live_env) w1 w2).
  { apply (rtc_l _ _ (after (camonitor live_env "X.VAL" None None w1)));
      [apply step_camonitor|].
    apply rtc_once. apply step_caget. }
  split; [exact H|]. split; [exact Hrtc|].
  exact (resolution_idempotent live_env fresh_world w1 w2 "X.VAL" default_timeout
           0%nat H Hrtc).
Defined.
